(** * gmail-automation-agent: orchestration and state layer

    A shallow embedding of the in-process core of the repository
    (agents_orchestrator.py, memory_service.py, logger_config.py,
    agent_evaluator.py) together with the properties its specification
    states about it.

    Conventions of the embedding:
    - a Python [dict] used as a map is a [gmap]; a [list] is a [list];
    - a dynamically typed value (JSON data, [Any]) is a [PyVal];
    - a Python [float] is a primitive IEEE-754 binary64 [float];
    - code that can raise returns [Exc A], the sum of an exception and a
      result; code with effects threads its state explicitly;
    - [datetime.utcnow()] is an input: either an explicit [now] argument
      (memory_service.py) or a read of the world clock (the agents);
    - the session store is given twice: by the contents of its sessions
      ([MemoryService]), and with the identity of its list and dict objects
      ([SessionObjects]), where an in-place append is seen through every
      reference to the list. *)

From Stdlib Require Import ZArith String Ascii List Floats.
From stdpp Require Import gmap strings list fin_maps.

Open Scope string_scope.
Set Warnings "-register-all".

(** ** Python values, exceptions and a few built-ins *)

Module Py.

(** JSON-shaped dynamically typed values.  A dict literal or a parsed JSON
    object is an association list whose first binding of a key is the one
    [dict.get] sees. *)
Inductive PyVal : Type :=
| PNone : PyVal
| PBool : bool -> PyVal
| PInt : Z -> PyVal
| PFloat : float -> PyVal
| PStr : string -> PyVal
| PList : list PyVal -> PyVal
| PDict : list (string * PyVal) -> PyVal.

(** The exception classes the core can meet; all derive from [Exception].
    [JSONDecodeError] is the only one an [except] clause of the core
    singles out. *)
Inductive ExnClass : Type :=
| JSONDecodeError | AttributeError | ValueError | TypeError
| KeyError | ZeroDivisionError | OverflowError | OtherException.

Record PyExn : Type := mkExn { exn_class : ExnClass; exn_text : string }.

(** [str(e)] *)
Definition str_exn (e : PyExn) : string := exn_text e.

Definition is_json_decode_error (e : PyExn) : bool :=
  match exn_class e with JSONDecodeError => true | _ => false end.

(** A computation that returns or raises. *)
Definition Exc (A : Type) : Type := PyExn + A.

Definition ok {A} (a : A) : Exc A := inr a.
Definition raise {A} (c : ExnClass) (msg : string) : Exc A := inl (mkExn c msg).

(** [type(v).__name__], used in the text of attribute and type errors. *)
Definition type_name (v : PyVal) : string :=
  match v with
  | PNone => "NoneType" | PBool _ => "bool" | PInt _ => "int"
  | PFloat _ => "float" | PStr _ => "str" | PList _ => "list"
  | PDict _ => "dict"
  end.

Definition no_attribute {A} (v : PyVal) (attr : string) : Exc A :=
  raise AttributeError
        ("'" ++ type_name v ++ "' object has no attribute '" ++ attr ++ "'").

(** [str.lower] on the ASCII letters; other bytes are left as they are. *)
Definition lower_ascii (c : ascii) : ascii :=
  let n := nat_of_ascii c in
  if (65 <=? n)%nat && (n <=? 90)%nat then ascii_of_nat (n + 32) else c.

Fixpoint lower (s : string) : string :=
  match s with
  | EmptyString => EmptyString
  | String c s' => String (lower_ascii c) (lower s')
  end.

(** [v.lower()]: only a [str] has the method. *)
Definition py_lower (v : PyVal) : Exc string :=
  match v with
  | PStr s => ok (lower s)
  | _ => no_attribute v "lower"
  end.

Fixpoint assoc_get (k : string) (d : list (string * PyVal)) : option PyVal :=
  match d with
  | [] => None
  | (k', v) :: d' => if String.eqb k k' then Some v else assoc_get k d'
  end.

(** [v.get(k, dflt)]: only a [dict] has the method. *)
Definition py_get (v : PyVal) (k : string) (dflt : PyVal) : Exc PyVal :=
  match v with
  | PDict d => ok (default dflt (assoc_get k d))
  | _ => no_attribute v "get"
  end.

(** The binary64 nearest to an [int] (infinite when the int is beyond the
    range of floats). *)
Definition float_of_Z (z : Z) : float :=
  SF2Prim (binary_normalize prec emax z 0 false).

(** [float(n)] for an [int]: Python refuses an int beyond the range. *)
Definition float_of_int (z : Z) : Exc float :=
  if PrimFloat.is_infinity (float_of_Z z)
  then raise OverflowError "int too large to convert to float"
  else ok (float_of_Z z).

(** Truth value of an [Optional[int]]: [None] and [0] are false. *)
Definition truthy_opt_int (o : option Z) : bool :=
  match o with
  | None => false
  | Some z => negb (z =? 0)%Z
  end.

(** [l[-n:]] for an int [n]: the last [n] items when [n] is positive; for
    [n = 0] the index [-0] is [0] and the slice is the whole list; for a
    negative [n] the start index [-n] is positive, so the first [-n] items
    are dropped. *)
Definition slice_from_minus {A} (l : list A) (n : Z) : list A :=
  if (0 <? n)%Z then drop (length l - Z.to_nat n) l
  else drop (Z.to_nat (- n)) l.

(** [s[:n]] for a string and a natural [n]. *)
Fixpoint str_take (n : nat) (s : string) : string :=
  match n, s with
  | S n', String c s' => String c (str_take n' s')
  | _, _ => EmptyString
  end.

(** The one-character string holding a line feed. *)
Definition newline : string := String (ascii_of_nat 10) EmptyString.

(** [sep.join(parts)] *)
Fixpoint str_join (sep : string) (parts : list string) : string :=
  match parts with
  | [] => EmptyString
  | [p] => p
  | p :: rest => p ++ sep ++ str_join sep rest
  end.

(** [sum(1 for x in l if p x)] *)
Definition count_if {A} (p : A -> bool) (l : list A) : Z :=
  fold_left (fun acc x => if p x then (acc + 1)%Z else acc) l 0%Z.

End Py.

Import Py.

(** ** memory_service.py *)

Module MemoryService.

Record ConversationMessage : Type := mkMessage {
  role : string;
  content : string;
  msg_timestamp : string
}.

(** [ConversationMessage.to_dict] ([asdict]) *)
Definition message_to_dict (m : ConversationMessage) : PyVal :=
  PDict [("role", PStr (role m)); ("content", PStr (content m));
         ("timestamp", PStr (msg_timestamp m))].

(** A stored entry.  The source keeps the creation time as the ISO string
    of [datetime.utcnow()] and parses it back with [fromisoformat]; the two
    are inverse, so the entry holds the instant itself, in microseconds
    (the resolution of [datetime]). *)
Record MemoryEntry : Type := mkEntry {
  key : string;
  value : PyVal;
  timestamp : Z;
  ttl_seconds : option Z
}.

(** *** InMemorySessionService

    A session is the dict [create_session] builds; its fields hold values,
    and [update_session] may add or overwrite any of them. *)

Definition session_init (created_at last_activity : string) : gmap string PyVal :=
  <["created_at" := PStr created_at]>
    (<["last_activity" := PStr last_activity]>
       (<["conversation" := PList []]>
          (<["metadata" := PDict []]> ∅))).

(** [create_session] reads the clock twice, once per timestamp. *)
Definition create_session (created_at last_activity : string) (session_id : string)
    (sessions : gmap string (gmap string PyVal)) : gmap string (gmap string PyVal) :=
  match sessions !! session_id with
  | None => <[session_id := session_init created_at last_activity]> sessions
  | Some _ => sessions
  end.

Definition get_session (session_id : string)
    (sessions : gmap string (gmap string PyVal)) : option (gmap string PyVal) :=
  sessions !! session_id.

(** [dict.update(data)] followed by the refresh of [last_activity]. *)
Definition update_session (now : string) (session_id : string)
    (data : gmap string PyVal) (sessions : gmap string (gmap string PyVal))
    : gmap string (gmap string PyVal) :=
  match sessions !! session_id with
  | Some sess => <[session_id := <["last_activity" := PStr now]> (data ∪ sess)]> sessions
  | None => sessions
  end.

(** [obj.append(x)]: only a [list] has the method. *)
Definition py_append (obj : PyVal) (x : PyVal) : Exc PyVal :=
  match obj with
  | PList l => ok (PList (l ++ [x]))
  | _ => no_attribute obj "append"
  end.

(** [self.sessions[session_id]['conversation'].append(message.to_dict())],
    guarded by [session_id in self.sessions]. *)
Definition add_message (session_id : string) (message : ConversationMessage)
    (sessions : gmap string (gmap string PyVal))
    : Exc (gmap string (gmap string PyVal)) :=
  match sessions !! session_id with
  | Some sess =>
      match sess !! "conversation" with
      | Some conv =>
          match py_append conv (message_to_dict message) with
          | inr conv' => ok (<[session_id := <["conversation" := conv']> sess]> sessions)
          | inl e => inl e
          end
      | None => raise KeyError "'conversation'"
      end
  | None => ok sessions
  end.

Definition get_conversation (session_id : string)
    (sessions : gmap string (gmap string PyVal)) : PyVal :=
  match get_session session_id sessions with
  | Some sess =>
      if decide (sess = ∅) then PList []
      else default (PList []) (sess !! "conversation")
  | None => PList []
  end.

Definition delete_session (session_id : string)
    (sessions : gmap string (gmap string PyVal)) : gmap string (gmap string PyVal) :=
  match sessions !! session_id with
  | Some _ => delete session_id sessions
  | None => sessions
  end.

(** *** MemoryBank *)

(** [MemoryBank.__init__] *)
Definition memory_init : gmap string MemoryEntry := ∅.

Definition store (now : Z) (k : string) (v : PyVal) (ttl : option Z)
    (memory : gmap string MemoryEntry) : gmap string MemoryEntry :=
  let entry := {| key := k; value := v; timestamp := now; ttl_seconds := ttl |} in
  <[k := entry]> memory.

(** [(now - stored_time).total_seconds() > ttl], with the elapsed time kept
    in microseconds and compared exactly ([total_seconds] is exact for any
    span below 2^53 microseconds). *)
Definition elapsed_exceeds (now stored_time ttl : Z) : bool :=
  (ttl * 1000000 <? now - stored_time)%Z.

(** [retrieve] returns the value ([None] for absent) and the bank it leaves
    behind. *)
Definition retrieve (now : Z) (k : string) (memory : gmap string MemoryEntry)
    : option PyVal * gmap string MemoryEntry :=
  match memory !! k with
  | Some entry =>
      if truthy_opt_int (ttl_seconds entry) then
        if elapsed_exceeds now (timestamp entry) (default 0%Z (ttl_seconds entry))
        then (None, delete k memory)
        else (Some (value entry), memory)
      else (Some (value entry), memory)
  | None => (None, memory)
  end.

(** [list(self.memory.keys())]; the order of the keys is not modelled. *)
Definition list_keys (memory : gmap string MemoryEntry) : list string :=
  elements (dom memory).

(** [MemoryBank.delete] *)
Definition delete_key (k : string) (memory : gmap string MemoryEntry)
    : gmap string MemoryEntry :=
  match memory !! k with
  | Some _ => delete k memory
  | None => memory
  end.

(** [MemoryBank.clear] *)
Definition clear (memory : gmap string MemoryEntry) : gmap string MemoryEntry := ∅.

(** *** ContextCompactor *)

Definition compact_conversation {A} (messages : list A) (max_messages : Z) : list A :=
  if (Z.of_nat (length messages) <=? max_messages)%Z then messages
  else slice_from_minus messages max_messages.

(** One line of the summary of a message dict with string fields (the
    fields [ConversationMessage] declares). *)
Definition summary_line (msg : gmap string string) : string :=
  let role := default "unknown" (msg !! "role") in
  let content := default "" (msg !! "content") in
  let content :=
    if (100 <? String.length content)%nat then str_take 100 content ++ "..."
    else content in
  role ++ ": " ++ content.

Definition summarize_messages (messages : list (gmap string string)) : string :=
  match messages with
  | [] => "(no messages)"
  | _ => str_join newline (map summary_line (slice_from_minus messages 5))
  end.

End MemoryService.

(** ** memory_service.py: the session store with object identity

    [InMemorySessionService] once more, this time with the objects it
    handles.  A session is a dict object, its conversation a list object,
    and [add_message] appends to that list in place; [update_session]
    copies references, so after [update_session(b, get_session(a))], or a
    patch that stores [get_conversation(a)] under another field, two
    fields hold the same list.  Scalars are values; lists and dicts live in
    a heap and are named by their location. *)

Module SessionObjects.
Import MemoryService.

Inductive Val : Type :=
| VNone : Val
| VBool : bool -> Val
| VInt : Z -> Val
| VFloat : float -> Val
| VStr : string -> Val
| VRef : positive -> Val.

Inductive Obj : Type :=
| OList (items : list Val)
| ODict (entries : gmap string Val).

(** The heap and the service's own [sessions] dict, which maps an id to
    the session's dict object. *)
Record Store : Type := mkStore {
  heap : gmap positive Obj;
  sessions : gmap string positive
}.

(** [InMemorySessionService.__init__] *)
Definition store_init : Store := {| heap := ∅; sessions := ∅ |}.

(** A new object gets a location no object has. *)
Definition alloc (o : Obj) (h : gmap positive Obj) : positive * gmap positive Obj :=
  let l := fresh (dom h) in (l, <[l := o]> h).

(** [type(v).__name__] *)
Definition val_type_name (h : gmap positive Obj) (v : Val) : string :=
  match v with
  | VNone => "NoneType" | VBool _ => "bool" | VInt _ => "int"
  | VFloat _ => "float" | VStr _ => "str"
  | VRef l =>
      match h !! l with
      | Some (OList _) => "list"
      | Some (ODict _) => "dict"
      | None => "object"
      end
  end.

(** The entries of [message.to_dict()]. *)
Definition message_entries (m : ConversationMessage) : gmap string Val :=
  <["role" := VStr (role m)]>
    (<["content" := VStr (content m)]>
       (<["timestamp" := VStr (msg_timestamp m)]> ∅)).

(** The dict literal of [create_session] builds the list, then the
    metadata dict, then the session dict. *)
Definition create_session (created_at last_activity : string) (session_id : string)
    (st : Store) : Store :=
  match sessions st !! session_id with
  | Some _ => st
  | None =>
      let '(lc, h1) := alloc (OList []) (heap st) in
      let '(lm, h2) := alloc (ODict ∅) h1 in
      let '(ls, h3) :=
        alloc (ODict (<["created_at" := VStr created_at]>
                        (<["last_activity" := VStr last_activity]>
                           (<["conversation" := VRef lc]>
                              (<["metadata" := VRef lm]> ∅))))) h2 in
      {| heap := h3; sessions := <[session_id := ls]> (sessions st) |}
  end.

(** [get_session] returns the session's dict object itself. *)
Definition get_session (session_id : string) (st : Store) : option positive :=
  sessions st !! session_id.

(** [dict.update(data)] copies the entries of [data], references included,
    into the session dict; then [last_activity] is set. *)
Definition update_session (now : string) (session_id : string)
    (data : gmap string Val) (st : Store) : Store :=
  match sessions st !! session_id with
  | Some ls =>
      match heap st !! ls with
      | Some (ODict d) =>
          {| heap := <[ls := ODict (<["last_activity" := VStr now]> (data ∪ d))]>
                       (heap st);
             sessions := sessions st |}
      | _ => st
      end
  | None => st
  end.

(** [self.sessions[session_id]['conversation'].append(message.to_dict())]:
    the attribute [append] is looked up on whatever the field holds before
    the message dict is built; a list is extended in place. *)
Definition add_message (session_id : string) (message : ConversationMessage)
    (st : Store) : Exc Store :=
  match sessions st !! session_id with
  | None => ok st
  | Some ls =>
      match heap st !! ls with
      | Some (ODict d) =>
          match d !! "conversation" with
          | None => raise KeyError "'conversation'"
          | Some (VRef lc) =>
              match heap st !! lc with
              | Some (OList items) =>
                  let '(lm, h1) := alloc (ODict (message_entries message)) (heap st) in
                  ok {| heap := <[lc := OList (items ++ [VRef lm])]> h1;
                        sessions := sessions st |}
              | _ =>
                  raise AttributeError
                        ("'" ++ val_type_name (heap st) (VRef lc)
                             ++ "' object has no attribute 'append'")
              end
          | Some v =>
              raise AttributeError
                    ("'" ++ val_type_name (heap st) v
                         ++ "' object has no attribute 'append'")
          end
      | _ => raise KeyError session_id
      end
  end.

Definition delete_session (session_id : string) (st : Store) : Store :=
  match sessions st !! session_id with
  | Some _ => {| heap := heap st; sessions := delete session_id (sessions st) |}
  | None => st
  end.

(** The items of the list a field of a session holds, when it holds one:
    what a caller reads through [get_session(id)[field]]. *)
Definition field_items (session_id field : string) (st : Store) : option (list Val) :=
  match sessions st !! session_id with
  | Some ls =>
      match heap st !! ls with
      | Some (ODict d) =>
          match d !! field with
          | Some (VRef l) =>
              match heap st !! l with
              | Some (OList items) => Some items
              | _ => None
              end
          | _ => None
          end
      | _ => None
      end
  | None => None
  end.


End SessionObjects.

(** ** logger_config.py *)

Module LoggerConfig.

(** The [metrics] dict of [MetricsCollector]: a fixed set of keys. *)
Record Metrics : Type := mkMetrics {
  total_emails_processed : Z;
  total_summaries_generated : Z;
  total_actions_executed : Z;
  avg_response_time_ms : float;
  success_count : Z;
  error_count : Z;
  pending_approval_count : Z
}.

(** [MetricsCollector.__init__] *)
Definition metrics_init : Metrics :=
  {| total_emails_processed := 0; total_summaries_generated := 0;
     total_actions_executed := 0; avg_response_time_ms := 0%float;
     success_count := 0; error_count := 0; pending_approval_count := 0 |}.

Definition set_avg_response_time_ms (x : float) (m : Metrics) : Metrics :=
  {| total_emails_processed := total_emails_processed m;
     total_summaries_generated := total_summaries_generated m;
     total_actions_executed := total_actions_executed m;
     avg_response_time_ms := x;
     success_count := success_count m;
     error_count := error_count m;
     pending_approval_count := pending_approval_count m |}.

Definition record_email_processed (m : Metrics) : Metrics :=
  {| total_emails_processed := total_emails_processed m + 1;
     total_summaries_generated := total_summaries_generated m;
     total_actions_executed := total_actions_executed m;
     avg_response_time_ms := avg_response_time_ms m;
     success_count := success_count m;
     error_count := error_count m;
     pending_approval_count := pending_approval_count m |}.

(** [x / n] for a float [x] and an int [n]: true division raises on a zero
    divisor. *)
Definition float_div_int (x : float) (n : Z) : Exc float :=
  if (n =? 0)%Z then raise ZeroDivisionError "float division by zero"
  else ok (x / float_of_Z n)%float.

Definition record_response_time (time_ms : float) (m : Metrics) : Exc Metrics :=
  let total :=
    (avg_response_time_ms m * float_of_Z (total_emails_processed m - 1))%float in
  match float_div_int (total + time_ms)%float (total_emails_processed m) with
  | inr avg => ok (set_avg_response_time_ms avg m)
  | inl e => inl e
  end.

Definition record_summary_generated (m : Metrics) : Metrics :=
  {| total_emails_processed := total_emails_processed m;
     total_summaries_generated := total_summaries_generated m + 1;
     total_actions_executed := total_actions_executed m;
     avg_response_time_ms := avg_response_time_ms m;
     success_count := success_count m;
     error_count := error_count m;
     pending_approval_count := pending_approval_count m |}.

Definition record_action_executed (status : string) (m : Metrics) : Metrics :=
  {| total_emails_processed := total_emails_processed m;
     total_summaries_generated := total_summaries_generated m;
     total_actions_executed := total_actions_executed m + 1;
     avg_response_time_ms := avg_response_time_ms m;
     success_count :=
       if String.eqb status "success" then success_count m + 1 else success_count m;
     error_count :=
       if String.eqb status "success" then error_count m
       else if String.eqb status "failed" then error_count m + 1 else error_count m;
     pending_approval_count :=
       if String.eqb status "success" then pending_approval_count m
       else if String.eqb status "failed" then pending_approval_count m
       else if String.eqb status "pending_approval" then pending_approval_count m + 1
       else pending_approval_count m |}.

(** [MetricsCollector.reset]: every int becomes [0], every float [0.0]. *)
Definition reset (m : Metrics) : Metrics :=
  {| total_emails_processed := 0; total_summaries_generated := 0;
     total_actions_executed := 0; avg_response_time_ms := 0%float;
     success_count := 0; error_count := 0; pending_approval_count := 0 |}.

(** *** RequestTracer

    The tracer's state is its [traces] dict.  [json.dumps] is a parameter:
    it fails on data it cannot serialise. *)

Section Tracer.

Variable json_dumps : PyVal -> Exc string.

Definition start_trace (now : string) (trace_id : string)
    (traces : gmap string (list string)) : gmap string (list string) :=
  <[trace_id := ["[START] " ++ now]]> traces.

(** [add_span] starts a missing trace before it serialises the data, so a
    failing [json.dumps] leaves the started trace behind. *)
Definition add_span (now : string) (trace_id span_name : string) (data : PyVal)
    (traces : gmap string (list string))
    : Exc unit * gmap string (list string) :=
  let traces1 :=
    match traces !! trace_id with
    | None => start_trace now trace_id traces
    | Some _ => traces
    end in
  match json_dumps data with
  | inl e => (inl e, traces1)
  | inr text =>
      let span_entry := "[" ++ span_name ++ "] " ++ text in
      (ok tt,
       <[trace_id := (default [] (traces1 !! trace_id) ++ [span_entry])%list]> traces1)
  end.

Definition end_trace (now : string) (trace_id : string)
    (traces : gmap string (list string))
    : list string * gmap string (list string) :=
  match traces !! trace_id with
  | Some spans =>
      let end_entry := "[END] " ++ now in
      let spans' := (spans ++ [end_entry])%list in
      (spans', <[trace_id := spans']> traces)
  | None => ([], traces)
  end.

Definition get_trace (trace_id : string) (traces : gmap string (list string))
    : list string :=
  default [] (traces !! trace_id).

Definition clear_traces (traces : gmap string (list string))
    : gmap string (list string) := ∅.

End Tracer.

End LoggerConfig.

(** ** agent_evaluator.py *)

Module AgentEvaluator.

Record AgentEvalMetrics : Type := mkEval {
  total_predictions : Z;
  correct_predictions : Z;
  precision : float;
  recall : float;
  f1_score : float;
  accuracy : float;
  avg_confidence : float
}.

(** An entry of [SummarizerEvaluator.predictions]. *)
Record Prediction : Type := mkPrediction {
  email_id : string;
  summary : string;
  action : string;
  confidence : float
}.

(** An entry of [SummarizerEvaluator.ground_truth]. *)
Record GroundTruth : Type := mkTruth {
  gt_email_id : string;
  true_action : string
}.

(** The dict comprehension [{gt['email_id']: gt['true_action'] for gt in ...}]:
    a later label of an id replaces an earlier one. *)
Definition build_truth_map (ground_truth : list GroundTruth) : gmap string string :=
  fold_left (fun m gt => <[gt_email_id gt := true_action gt]> m) ground_truth ∅.

(** One iteration of the loop over the predictions, on the pair
    [(correct, total_confidence)]. *)
Definition eval_step (truth_map : gmap string string)
    (acc : Z * float) (pred : Prediction) : Z * float :=
  let '(correct, total_confidence) := acc in
  match truth_map !! email_id pred with
  | Some truth =>
      ((if String.eqb (lower (action pred)) (lower truth)
        then correct + 1 else correct)%Z,
       (total_confidence + confidence pred)%float)
  | None => (correct, total_confidence)
  end.

(** [a / b] for two ints: the quotient as a float (the operands are counts,
    far below 2^53, so converting them first is exact). *)
Definition int_div_int (a b : Z) : float := (float_of_Z a / float_of_Z b)%float.

Definition evaluate_actions (predictions : list Prediction)
    (ground_truth : list GroundTruth) : AgentEvalMetrics :=
  let truth_map := build_truth_map ground_truth in
  let total := Z.of_nat (length predictions) in
  let '(correct, total_confidence) :=
    fold_left (eval_step truth_map) predictions (0%Z, 0%float) in
  {| total_predictions := total;
     correct_predictions := correct;
     precision := 0%float;
     recall := 0%float;
     f1_score := 0%float;
     accuracy := if (0 <? total)%Z then int_div_int correct total else 0%float;
     avg_confidence :=
       if (0 <? total)%Z then (total_confidence / float_of_Z total)%float
       else 0%float |}.

(** *** SummarizerEvaluator: recording *)

Definition add_prediction (id summ act : string) (conf : float)
    (predictions : list Prediction) : list Prediction :=
  predictions ++ [ {| email_id := id; summary := summ; action := act;
                      confidence := conf |} ].

Definition add_ground_truth (id act : string) (ground_truth : list GroundTruth)
    : list GroundTruth :=
  ground_truth ++ [ {| gt_email_id := id; true_action := act |} ].

(** *** ActionEvaluator *)

(** An entry of [ActionEvaluator.action_results]. *)
Record ActionRecord : Type := mkActionRecord {
  rec_email_id : string;
  rec_action : string;
  rec_status : string;
  human_approved : PyVal;
  rec_timestamp : string
}.

Definition add_result (now : string) (id act st : string) (approved : PyVal)
    (action_results : list ActionRecord) : list ActionRecord :=
  action_results ++ [ {| rec_email_id := id; rec_action := act; rec_status := st;
                         human_approved := approved; rec_timestamp := now |} ].

Definition has_status (st : string) (r : ActionRecord) : bool :=
  String.eqb (rec_status r) st.

(** The report dict of [evaluate_success_rate]: two keys when nothing was
    recorded, five otherwise. *)
Definition evaluate_success_rate (action_results : list ActionRecord)
    : list (string * PyVal) :=
  match action_results with
  | [] => [("success_rate", PFloat 0%float); ("total_actions", PInt 0)]
  | _ =>
      let total := Z.of_nat (length action_results) in
      let successful := count_if (has_status "success") action_results in
      let pending := count_if (has_status "pending_approval") action_results in
      let failed := count_if (has_status "failed") action_results in
      [("total_actions", PInt total);
       ("successful", PInt successful);
       ("pending_approval", PInt pending);
       ("failed", PInt failed);
       ("success_rate",
        PFloat (if (0 <? total)%Z then int_div_int successful total else 0%float))]
  end.

(** [r['human_approved'] is True], [is False], [is None]: identity with
    the three singletons, so a flag of any other value ([1], a string)
    passes none of the tests. *)
Definition is_approved (r : ActionRecord) : bool :=
  match human_approved r with PBool true => true | _ => false end.
Definition is_rejected (r : ActionRecord) : bool :=
  match human_approved r with PBool false => true | _ => false end.
Definition is_undecided (r : ActionRecord) : bool :=
  match human_approved r with PNone => true | _ => false end.

Definition evaluate_human_approval_rate (action_results : list ActionRecord)
    : list (string * PyVal) :=
  let approved_count := count_if is_approved action_results in
  let rejected_count := count_if is_rejected action_results in
  let pending_count := count_if is_undecided action_results in
  let total := Z.of_nat (length action_results) in
  [("total", PInt total);
   ("approved", PInt approved_count);
   ("rejected", PInt rejected_count);
   ("pending", PInt pending_count);
   ("approval_rate",
    PFloat (if (0 <? total)%Z then int_div_int approved_count total else 0%float))].

End AgentEvaluator.

(** ** agents_orchestrator.py *)

Module AgentsOrchestrator.

Record EmailMessage : Type := mkEmail {
  id : string;
  subject : string;
  sender : string;
  snippet : string;
  body : option string
}.

(** The summarizer copies [summary] and [action] out of parsed JSON without
    checking their type, so both fields hold a [PyVal]. *)
Record SummaryResult : Type := mkSummary {
  email_id : string;
  summary : PyVal;
  suggested_action : PyVal;
  confidence : float;
  timestamp : string
}.

Record ActionResult : Type := mkAction {
  ar_email_id : string;
  action : PyVal;
  status : string;
  message : option string;
  ar_timestamp : string
}.

(** The report dict of [process_inbox]; [to_dict] on its items is the
    identity on records. *)
Record Report : Type := mkReport {
  total_emails : Z;
  summaries : list SummaryResult;
  actions : list ActionResult;
  report_timestamp : string
}.

(** *** Effects

    What the agents do to the outside is recorded as a chronological list
    of events: the log records they emit, tagged with the emitting class,
    and the calls they make on the two client objects. *)

Inductive Component : Type := Fetcher | Summarizer | Actor | Orchestrator.
Inductive Level : Type := INFO | ERROR.

Inductive Event : Type :=
| Logged (who : Component) (lvl : Level) (template : string) (args : list PyVal)
| GmailListUnread (max_results : Z)
| OpenAISummarize (emails : list EmailMessage).

Record World : Type := mkWorld {
  clock_reads : nat;
  events : list Event
}.

(** The collaborators, as oracles.  A client call may answer differently
    each time, so its answer depends on the world it is made in. *)
Record Collaborators : Type := mkCollaborators {
  list_unread_emails : World -> Z -> Exc (list (gmap string string));
  summarize_emails : World -> list EmailMessage -> Exc string;
  json_loads : string -> Exc PyVal;
  float_of_str : string -> option float;
  utcnow_isoformat : nat -> string
}.

(** State and exceptions: a raise keeps the effects made before it. *)
Definition M (A : Type) : Type := World -> Exc A * World.

Definition ret {A} (a : A) : M A := fun w => (inr a, w).

Definition bind {A B} (m : M A) (k : A -> M B) : M B :=
  fun w =>
    match m w with
    | (inr a, w') => k a w'
    | (inl e, w') => (inl e, w')
    end.

#[global] Instance M_ret : MRet M := @ret.
#[global] Instance M_bind : MBind M := fun A B k m => bind m k.

Definition lift {A} (r : Exc A) : M A := fun w => (r, w).

Definition emit (e : Event) : M unit :=
  fun w => (inr tt, {| clock_reads := clock_reads w; events := events w ++ [e] |}).

Definition log (who : Component) (lvl : Level) (template : string)
    (args : list PyVal) : M unit :=
  emit (Logged who lvl template args).

(** [try: m except <class> as e: h e], where [catches] tells the class. *)
Definition try_except {A} (m : M A) (catches : PyExn -> bool) (h : PyExn -> M A)
    : M A :=
  fun w =>
    match m w with
    | (inl e, w') => if catches e then h e w' else (inl e, w')
    | r => r
    end.

Definition any_exception (e : PyExn) : bool := true.

(** A [for] loop that appends one result per item. *)
Fixpoint for_each {A B} (f : A -> M B) (l : list A) : M (list B) :=
  match l with
  | [] => ret []
  | x :: l' => y ← f x; ys ← for_each f l'; ret (y :: ys)
  end.

Section Agents.

Variable env : Collaborators.

(** [datetime.utcnow().isoformat()] *)
Definition utcnow : M string :=
  fun w => (inr (utcnow_isoformat env (clock_reads w)),
            {| clock_reads := S (clock_reads w); events := events w |}).

Definition call_list_unread_emails (max_results : Z)
    : M (list (gmap string string)) :=
  fun w =>
    let w' := {| clock_reads := clock_reads w;
                 events := events w ++ [GmailListUnread max_results] |} in
    (list_unread_emails env w max_results, w').

Definition call_summarize_emails (emails : list EmailMessage) : M string :=
  fun w =>
    let w' := {| clock_reads := clock_reads w;
                 events := events w ++ [OpenAISummarize emails] |} in
    (summarize_emails env w emails, w').

(** [float(v)] *)
Definition py_float (v : PyVal) : Exc float :=
  match v with
  | PFloat f => ok f
  | PInt z => float_of_int z
  | PBool b => ok (if b then 1%float else 0%float)
  | PStr s =>
      match float_of_str env s with
      | Some f => ok f
      | None => raise ValueError ("could not convert string to float: '" ++ s ++ "'")
      end
  | _ => raise TypeError
           ("float() argument must be a string or a real number, not '"
              ++ type_name v ++ "'")
  end.

(** *** EmailFetcherAgent *)

Definition email_of_dict (e : gmap string string) : EmailMessage :=
  {| id := default "" (e !! "id");
     subject := default "(no subject)" (e !! "subject");
     sender := default "(unknown)" (e !! "from");
     snippet := default "" (e !! "snippet");
     body := None |}.

Definition fetch_emails (max_results : Z) : M (list EmailMessage) :=
  log Fetcher INFO "EmailFetcherAgent: fetching up to {} unread emails"
         [PInt max_results];;
  try_except
    (emails ← call_list_unread_emails max_results;
     let messages := map email_of_dict emails in
     log Fetcher INFO "EmailFetcherAgent: fetched {} emails"
            [PInt (Z.of_nat (length messages))];;
     ret messages)
    any_exception
    (fun e =>
       log Fetcher ERROR "EmailFetcherAgent error: {}" [PStr (str_exn e)];;
       ret []).

(** *** SummarizerAgent *)

(** The inner [try]: parse the response and read the three fields; a
    [JSONDecodeError] gives the degraded triple.  (The [prompt] the source
    formats first is never used.) *)
Definition parse_response (response_text : string) : M (PyVal * PyVal * float) :=
  try_except
    (result_json ← lift (json_loads env response_text);
     summary ← lift (py_get result_json "summary" (PStr response_text));
     action ← lift (py_get result_json "action" (PStr "escalate"));
     conf ← lift (py_get result_json "confidence" (PFloat 0.5));
     confidence ← lift (py_float conf);
     ret (summary, action, confidence))
    is_json_decode_error
    (fun _ => ret (PStr response_text, PStr "escalate", 0.5%float)).

Definition summarize_and_suggest (email : EmailMessage) : M SummaryResult :=
  log Summarizer INFO "SummarizerAgent: processing email {}" [PStr (id email)];;
  try_except
    (response_text ← call_summarize_emails [email];
     parsed ← parse_response response_text;
     let '(summary, action, confidence) := parsed in
     now ← utcnow;
     let result := {| email_id := id email; summary := summary;
                      suggested_action := action; confidence := confidence;
                      timestamp := now |} in
     log Summarizer INFO "SummarizerAgent: completed for email {}, action={}"
            [PStr (id email); action];;
     ret result)
    any_exception
    (fun e =>
       log Summarizer ERROR "SummarizerAgent error: {}" [PStr (str_exn e)];;
       now ← utcnow;
       ret {| email_id := id email; summary := PStr "(summarization failed)";
              suggested_action := PStr "escalate"; confidence := 0%float;
              timestamp := now |}).

(** *** ActionAgent *)

(** The body of the [try] of [execute_action]. *)
Definition execute_action_body (summary : SummaryResult) : M ActionResult :=
  action ← lift (py_lower (suggested_action summary));
  let '(status, msg) :=
    if String.eqb action "archive" then ("success", "Archived")
    else if String.eqb action "reply" then ("pending_approval", "Ready for human reply")
    else ("success", "Escalated to human review") in
  now ← utcnow;
  let result := {| ar_email_id := email_id summary; action := PStr action;
                   status := status; message := Some msg; ar_timestamp := now |} in
  log Actor INFO "ActionAgent: completed action for email {}, status={}"
         [PStr (email_id summary); PStr status];;
  ret result.

Definition execute_action (summary : SummaryResult) (requires_approval : bool)
    : M ActionResult :=
  log Actor INFO "ActionAgent: executing action '{}' for email {}"
         [suggested_action summary; PStr (email_id summary)];;
  if requires_approval then
    now ← utcnow;
    ret {| ar_email_id := email_id summary; action := suggested_action summary;
           status := "pending_approval"; message := Some "Awaiting human approval";
           ar_timestamp := now |}
  else
    try_except (execute_action_body summary) any_exception
      (fun e =>
         log Actor ERROR "ActionAgent error: {}" [PStr (str_exn e)];;
         now ← utcnow;
         ret {| ar_email_id := email_id summary; action := suggested_action summary;
                status := "failed"; message := Some (str_exn e);
                ar_timestamp := now |}).

(** *** EmailAssistantOrchestrator *)

Definition process_inbox (max_emails : Z) (require_approval : bool) : M Report :=
  log Orchestrator INFO "Orchestrator: starting process_inbox" [];;
  emails ← fetch_emails max_emails;
  match emails with
  | [] =>
      log Orchestrator INFO "Orchestrator: no emails to process" [];;
      now ← utcnow;
      ret {| total_emails := 0; summaries := []; actions := [];
             report_timestamp := now |}
  | _ =>
      summaries ← for_each summarize_and_suggest emails;
      actions ← for_each (fun s => execute_action s require_approval) summaries;
      now ← utcnow;
      let result := {| total_emails := Z.of_nat (length emails);
                       summaries := summaries; actions := actions;
                       report_timestamp := now |} in
      log Orchestrator INFO "Orchestrator: completed process_inbox, processed {} emails"
             [PInt (Z.of_nat (length emails))];;
      ret result
  end.

End Agents.

End AgentsOrchestrator.

(** ** What the specification says, in its own words

    Declarative counterparts of the loops of the evaluator, stated the way
    the specification phrases them; they are compared with the code below. *)

Module EvaluatorSpec.
Import AgentEvaluator.

(** A prediction "has a matching ground-truth id". *)
Definition has_truth (truth_map : gmap string string) (p : Prediction) : bool :=
  match truth_map !! email_id p with Some _ => true | None => false end.

(** A prediction's action "matches the ground-truth action for the same
    item id case-insensitively". *)
Definition action_matches (truth_map : gmap string string) (p : Prediction) : bool :=
  match truth_map !! email_id p with
  | Some truth => String.eqb (lower (action p)) (lower truth)
  | None => false
  end.

(** The sum of a list of floats, accumulated from [0.0] in list order. *)
Definition float_sum (l : list float) : float := fold_left PrimFloat.add l 0%float.

Definition matched_count (truth_map : gmap string string) (ps : list Prediction) : Z :=
  Z.of_nat (length (List.filter (action_matches truth_map) ps)).

Definition matched_confidence (truth_map : gmap string string)
    (ps : list Prediction) : float :=
  float_sum (map confidence (List.filter (has_truth truth_map) ps)).

End EvaluatorSpec.

Module SessionSpec.

(** Every session id of the store names a dict object of its heap: the
    shape of every store the service can reach. *)
Definition sessions_allocated (st : SessionObjects.Store) : Prop :=
  forall (sid : string) (ls : positive),
    SessionObjects.sessions st !! sid = Some ls ->
    exists d : gmap string SessionObjects.Val,
      SessionObjects.heap st !! ls = Some (SessionObjects.ODict d).

(** The shape [create_session] gives a session and [add_message] relies
    on: the [conversation] field holds a list. *)
Definition has_conversation (sess : gmap string PyVal) : Prop :=
  exists conv : list PyVal, sess !! "conversation" = Some (PList conv).

End SessionSpec.

Module PipelineSpec.
Import AgentsOrchestrator.

(** A call on one of the client objects (the mail client, which is also
    the side-effect executor, or the summarization client). *)
Definition is_client_call (e : Event) : bool :=
  match e with
  | GmailListUnread _ | OpenAISummarize _ => true
  | Logged _ _ _ _ => false
  end.

Definition client_calls (w : World) : list Event :=
  List.filter is_client_call (events w).

(** An event only the summarize or the action stage produces. *)
Definition from_later_stage (e : Event) : bool :=
  match e with
  | Logged Summarizer _ _ _ | Logged Actor _ _ _ | OpenAISummarize _ => true
  | _ => false
  end.

(** The world in which the body of a stage runs: the one left by the log
    record emitted on entry. *)
Definition after_log (who : Component) (template : string) (args : list PyVal)
    (w : World) : World :=
  (log who INFO template args w).2.

Definition entered_action (s : SummaryResult) (w : World) : World :=
  after_log Actor "ActionAgent: executing action '{}' for email {}"
            [suggested_action s; PStr (email_id s)] w.

Definition entered_summarizer (email : EmailMessage) (w : World) : World :=
  after_log Summarizer "SummarizerAgent: processing email {}" [PStr (id email)] w.

Definition entered_orchestrator (w : World) : World :=
  after_log Orchestrator "Orchestrator: starting process_inbox" [] w.

End PipelineSpec.

(** ** Sequences of operations

    Drivers that apply an operation of the source several times, used to
    state what a whole run of calls does. *)

Module Scenarios.
Import MemoryService LoggerConfig AgentEvaluator.

(** [add_message] once per message, in order, stopping at the first raise. *)
Fixpoint add_messages (session_id : string) (messages : list ConversationMessage)
    (sessions : gmap string (gmap string PyVal))
    : Exc (gmap string (gmap string PyVal)) :=
  match messages with
  | [] => ok sessions
  | m :: rest =>
      match add_message session_id m sessions with
      | inr sessions' => add_messages session_id rest sessions'
      | inl e => inl e
      end
  end.

(** A call on the [MetricsCollector]. *)
Inductive MetricsCall : Type :=
| EmailProcessed
| SummaryGenerated
| ActionExecuted (status : string)
| ResponseTime (time_ms : float)
| Reset.

(** The state a call leaves; a [record_response_time] that raises has not
    yet assigned anything. *)
Definition metrics_call (m : Metrics) (c : MetricsCall) : Metrics :=
  match c with
  | EmailProcessed => record_email_processed m
  | SummaryGenerated => record_summary_generated m
  | ActionExecuted status => record_action_executed status m
  | ResponseTime t =>
      match record_response_time t m with inr m' => m' | inl _ => m end
  | Reset => reset m
  end.

Definition metrics_calls (calls : list MetricsCall) (m : Metrics) : Metrics :=
  fold_left metrics_call calls m.

(** What the counters of a state promise. *)
Definition counters_consistent (m : Metrics) : Prop :=
  (0 <= total_emails_processed m)%Z
  /\ (0 <= total_summaries_generated m)%Z
  /\ (0 <= success_count m)%Z
  /\ (0 <= error_count m)%Z
  /\ (0 <= pending_approval_count m)%Z
  /\ (success_count m + error_count m + pending_approval_count m
      <= total_actions_executed m)%Z.

(** [add_span] once per (name, data) pair at the given instant, stopping at
    the first raise. *)
Fixpoint add_spans (json_dumps : PyVal -> Exc string) (now : string)
    (trace_id : string) (spans : list (string * PyVal))
    (traces : gmap string (list string))
    : Exc unit * gmap string (list string) :=
  match spans with
  | [] => (ok tt, traces)
  | (name, data) :: rest =>
      match add_span json_dumps now trace_id name data traces with
      | (inr _, traces') => add_spans json_dumps now trace_id rest traces'
      | (inl e, traces') => (inl e, traces')
      end
  end.

(** The entry [add_span] appends for data that serialises to [text]. *)
Definition span_entry (name text : string) : string := "[" ++ name ++ "] " ++ text.

(** A ground-truth label with its action lower-cased. *)
Definition lower_truth (gt : GroundTruth) : GroundTruth :=
  {| gt_email_id := gt_email_id gt; true_action := lower (true_action gt) |}.

(** A [human_approved] flag that is one of [True], [False], [None]. *)
Definition tri_state (v : PyVal) : bool :=
  match v with PBool _ | PNone => true | _ => false end.

(** A status the action stage can produce. *)
Definition known_status (st : string) : bool :=
  String.eqb st "success" || String.eqb st "pending_approval" || String.eqb st "failed".

(** A prediction with its action lower-cased. *)
Definition lower_action (p : Prediction) : Prediction :=
  {| email_id := email_id p; summary := summary p; action := lower (action p);
     confidence := confidence p |}.

End Scenarios.

(** ** Sample inputs used in the examples *)

Module Samples.
Import MemoryService AgentEvaluator.

Definition bank_zero_ttl : gmap string MemoryEntry :=
  store 0 "k" (PStr "v") (Some 0%Z) memory_init.

Definition bank_one_second : gmap string MemoryEntry :=
  store 0 "k" (PStr "v") (Some 1%Z) memory_init.

Definition hello : ConversationMessage :=
  {| role := "user"; content := "hello"; msg_timestamp := "2024-01-01T00:00:00" |}.

Definition one_session : gmap string (gmap string PyVal) :=
  create_session "2024-01-01T00:00:00" "2024-01-01T00:00:00" "s1" ∅.

Definition two_predictions (c1 c2 : float) : list Prediction :=
  [ {| email_id := "1"; summary := "a"; action := "Archive"; confidence := c1 |};
    {| email_id := "2"; summary := "b"; action := "reply"; confidence := c2 |} ].

Definition one_truth : list GroundTruth :=
  [ {| gt_email_id := "1"; true_action := "archive" |} ].


(** A mail client with one unread message, a summarization client that
    answers in plain prose, and a JSON parser that knows two documents. *)
Definition prose_env : AgentsOrchestrator.Collaborators :=
  {| AgentsOrchestrator.list_unread_emails := fun _ _ =>
       ok [ {[ "id" := "m1"; "subject" := "Invoice"; "from" := "a@example.org";
               "snippet" := "Please find attached" ]} ];
     AgentsOrchestrator.summarize_emails := fun _ _ => ok "An invoice; archive it.";
     AgentsOrchestrator.json_loads := fun text =>
       if String.eqb text "42" then ok (PInt 42)
       else if String.eqb text "{}" then ok (PDict [])
       else raise JSONDecodeError "Expecting value: line 1 column 1 (char 0)";
     AgentsOrchestrator.float_of_str := fun _ => None;
     AgentsOrchestrator.utcnow_isoformat := fun _ => "2024-01-01T00:00:00" |}.

(** The same, with a summarization client that is down and an empty inbox. *)
Definition failing_env : AgentsOrchestrator.Collaborators :=
  {| AgentsOrchestrator.list_unread_emails := fun _ _ => ok [];
     AgentsOrchestrator.summarize_emails := fun _ _ =>
       raise OtherException "connection timed out";
     AgentsOrchestrator.json_loads := AgentsOrchestrator.json_loads prose_env;
     AgentsOrchestrator.float_of_str := fun _ => None;
     AgentsOrchestrator.utcnow_isoformat := fun _ => "2024-01-01T00:00:00" |}.

Definition world0 : AgentsOrchestrator.World :=
  {| AgentsOrchestrator.clock_reads := 0; AgentsOrchestrator.events := [] |}.

Definition invoice : AgentsOrchestrator.EmailMessage :=
  {| AgentsOrchestrator.id := "m1"; AgentsOrchestrator.subject := "Invoice";
     AgentsOrchestrator.sender := "a@example.org";
     AgentsOrchestrator.snippet := "Please find attached";
     AgentsOrchestrator.body := None |}.

Definition suggestion (a : PyVal) : AgentsOrchestrator.SummaryResult :=
  {| AgentsOrchestrator.email_id := "m1";
     AgentsOrchestrator.summary := PStr "An invoice";
     AgentsOrchestrator.suggested_action := a;
     AgentsOrchestrator.confidence := 0.75%float;
     AgentsOrchestrator.timestamp := "2024-01-01T00:00:00" |}.

(** A summarization client that answers [text], with a parser that reads
    [text] as [parsed] and rejects everything else. *)
Definition answering (text : string) (parsed : Exc PyVal)
    : AgentsOrchestrator.Collaborators :=
  {| AgentsOrchestrator.list_unread_emails :=
       AgentsOrchestrator.list_unread_emails prose_env;
     AgentsOrchestrator.summarize_emails := fun _ _ => ok text;
     AgentsOrchestrator.json_loads := fun t =>
       if String.eqb t text then parsed
       else raise JSONDecodeError "Expecting value: line 1 column 1 (char 0)";
     AgentsOrchestrator.float_of_str := fun _ => None;
     AgentsOrchestrator.utcnow_isoformat := fun _ => "2024-01-01T00:00:00" |}.

(** A store with the one session [s1], as [create_session] builds it: the
    conversation list is object 1, the metadata dict object 2, the session
    dict object 3. *)
Definition object_session : SessionObjects.Store :=
  SessionObjects.create_session "2024-01-01T00:00:00" "2024-01-01T00:00:00" "s1"
                                SessionObjects.store_init.

(** An object that names an action but not a summary. *)
Definition archive_object : list (string * PyVal) :=
  [("action", PStr "Archive"); ("confidence", PFloat 0.75%float)].

End Samples.

(** * Properties *)

(** ** Memory Bank *)

Section MemoryBankProperties.
Import MemoryService.

Lemma truthy_opt_int_Some (z : Z) : truthy_opt_int (Some z) = true <-> z <> 0%Z.
Proof.
  simpl. destruct (Z.eqb_spec z 0); simpl; split; intros; congruence.
Qed.

Lemma elapsed_exceeds_spec (now stored ttl : Z) :
  elapsed_exceeds now stored ttl = true <-> (ttl * 1000000 < now - stored)%Z.
Proof. unfold elapsed_exceeds. apply Z.ltb_lt. Qed.

Lemma list_keys_elem (k : string) (memory : gmap string MemoryEntry) :
  k ∈ list_keys memory <-> is_Some (memory !! k).
Proof. unfold list_keys. rewrite elem_of_elements. apply elem_of_dom. Qed.

(** An absent key reads as absent and leaves the bank alone. *)
Lemma retrieve_absent (now : Z) (k : string) (memory : gmap string MemoryEntry) :
  memory !! k = None -> retrieve now k memory = (None, memory).
Proof. intros H. unfold retrieve. by rewrite H. Qed.

(** An entry whose TTL test passes and whose age exceeds it is dropped. *)
Lemma retrieve_expired (now : Z) (k : string) (memory : gmap string MemoryEntry)
    (entry : MemoryEntry) (ttl : Z) :
  memory !! k = Some entry -> ttl_seconds entry = Some ttl -> ttl <> 0%Z ->
  (ttl * 1000000 < now - timestamp entry)%Z ->
  retrieve now k memory = (None, delete k memory).
Proof.
  intros Hk Httl Hnz Hold. unfold retrieve. rewrite Hk, Httl.
  apply truthy_opt_int_Some in Hnz. rewrite Hnz. simpl.
  apply elapsed_exceeds_spec in Hold. by rewrite Hold.
Qed.

Lemma retrieve_fresh (now : Z) (k : string) (memory : gmap string MemoryEntry)
    (entry : MemoryEntry) (ttl : Z) :
  memory !! k = Some entry -> ttl_seconds entry = Some ttl ->
  (now - timestamp entry <= ttl * 1000000)%Z ->
  retrieve now k memory = (Some (value entry), memory).
Proof.
  intros Hk Httl Hyoung. unfold retrieve. rewrite Hk, Httl.
  destruct (truthy_opt_int (Some ttl)); [|done]. simpl.
  destruct (elapsed_exceeds now (timestamp entry) ttl) eqn:E; [|done].
  apply elapsed_exceeds_spec in E. lia.
Qed.

Lemma retrieve_falsy_ttl (now : Z) (k : string) (memory : gmap string MemoryEntry)
    (entry : MemoryEntry) :
  memory !! k = Some entry -> truthy_opt_int (ttl_seconds entry) = false ->
  retrieve now k memory = (Some (value entry), memory).
Proof. intros Hk Hf. unfold retrieve. by rewrite Hk, Hf. Qed.

(** C4, as the code has it.  For a stored key: when the TTL is set to a
    non-zero number of seconds and the time elapsed since the stored
    timestamp exceeds it, [retrieve] deletes the entry, reports absent, and
    [list_keys] on the bank it leaves no longer includes the key; in every
    other case [retrieve] returns the stored value and leaves the bank
    unchanged; an entry with no TTL is returned whatever the elapsed time. *)
Theorem retrieve_ttl_nonzero_spec (now : Z) (k : string)
    (memory : gmap string MemoryEntry) (entry : MemoryEntry) :
  memory !! k = Some entry ->
  (forall ttl : Z,
      ttl_seconds entry = Some ttl -> ttl <> 0%Z ->
      (ttl * 1000000 < now - timestamp entry)%Z ->
      retrieve now k memory = (None, delete k memory)
      /\ k ∉ list_keys (retrieve now k memory).2)
  /\ (~ (exists ttl : Z,
           ttl_seconds entry = Some ttl /\ ttl <> 0%Z
           /\ (ttl * 1000000 < now - timestamp entry)%Z) ->
      retrieve now k memory = (Some (value entry), memory))
  /\ (ttl_seconds entry = None ->
      retrieve now k memory = (Some (value entry), memory)).
Proof.
  intros Hk. split; [|split].
  - intros ttl Httl Hnz Hold.
    rewrite (retrieve_expired now k memory entry ttl) by done. split; [done|].
    simpl. rewrite list_keys_elem, lookup_delete_eq. by intros [? ?].
  - intros Hno. destruct (ttl_seconds entry) as [ttl|] eqn:Httl.
    + destruct (Z.eq_dec ttl 0%Z) as [->|Hnz].
      * apply retrieve_falsy_ttl; [done|]. by rewrite Httl.
      * apply (retrieve_fresh now k memory entry ttl); [done..|].
        destruct (Z_lt_le_dec (ttl * 1000000) (now - timestamp entry)); [|done].
        exfalso. apply Hno. eauto.
    + apply retrieve_falsy_ttl; [done|]. by rewrite Httl.
  - intros Hnone. apply retrieve_falsy_ttl; [done|]. by rewrite Hnone.
Qed.

(** A one-second entry read two seconds later is gone from the key list;
    read at once it is returned. *)
Lemma retrieve_ttl_nonzero_spec_witness :
  Samples.bank_one_second !! "k"
    = Some {| key := "k"; value := PStr "v"; timestamp := 0;
              ttl_seconds := Some 1%Z |}
  /\ retrieve 2000000 "k" Samples.bank_one_second
       = (None, delete "k" Samples.bank_one_second)
  /\ "k" ∉ list_keys (retrieve 2000000 "k" Samples.bank_one_second).2.
Proof.
  assert (Hk : Samples.bank_one_second !! "k"
    = Some {| key := "k"; value := PStr "v"; timestamp := 0;
              ttl_seconds := Some 1%Z |}) by reflexivity.
  split; [exact Hk|].
  destruct (retrieve_ttl_nonzero_spec 2000000 "k" _ _ Hk) as [Hexp _].
  apply (Hexp 1%Z); [reflexivity | lia | simpl; lia].
Defined.

(** C4 as written fails at a TTL of zero seconds: the TTL is set, any
    positive elapsed time exceeds it, and yet the value is returned and the
    key stays listed. *)
Lemma retrieve_zero_ttl_still_present :
  Samples.bank_zero_ttl !! "k"
    = Some {| key := "k"; value := PStr "v"; timestamp := 0;
              ttl_seconds := Some 0%Z |}
  /\ (0 * 1000000 < 5000000 - 0)%Z
  /\ (retrieve 5000000 "k" Samples.bank_zero_ttl).1 = Some (PStr "v")
  /\ "k" ∈ list_keys (retrieve 5000000 "k" Samples.bank_zero_ttl).2.
Proof.
  split; [reflexivity|]. split; [lia|]. split; [reflexivity|].
  rewrite list_keys_elem. eexists. reflexivity.
Qed.

(** C10.  An entry stored with a TTL of zero is returned by [retrieve]
    whatever the time of the read, and the bank keeps it: zero behaves
    like no TTL. *)
Theorem retrieve_zero_ttl_never_expires (stored_at now : Z) (k : string)
    (v : PyVal) (memory : gmap string MemoryEntry) :
  retrieve now k (store stored_at k v (Some 0%Z) memory)
    = (Some v, store stored_at k v (Some 0%Z) memory)
  /\ retrieve now k (store stored_at k v None memory)
    = (Some v, store stored_at k v None memory)
  /\ k ∈ list_keys (retrieve now k (store stored_at k v (Some 0%Z) memory)).2.
Proof.
  assert (H0 : retrieve now k (store stored_at k v (Some 0%Z) memory)
               = (Some v, store stored_at k v (Some 0%Z) memory)).
  { unfold retrieve, store. by rewrite lookup_insert_eq. }
  split; [exact H0|]. split.
  - unfold retrieve, store. by rewrite lookup_insert_eq.
  - rewrite H0. simpl. rewrite list_keys_elem. unfold store.
    rewrite lookup_insert_eq. by eexists.
Qed.

End MemoryBankProperties.

(** ** Session Store *)

Section SessionStoreProperties.
Import MemoryService SessionSpec.

Lemma session_init_has_conversation (t1 t2 : string) :
  has_conversation (session_init t1 t2).
Proof. exists []. reflexivity. Qed.

Lemma create_session_fresh (t1 t2 sid : string)
    (sessions : gmap string (gmap string PyVal)) :
  sessions !! sid = None ->
  create_session t1 t2 sid sessions !! sid = Some (session_init t1 t2).
Proof. intros H. unfold create_session. rewrite H. apply lookup_insert_eq. Qed.

Lemma add_message_missing (sid : string) (msg : ConversationMessage)
    (sessions : gmap string (gmap string PyVal)) :
  sessions !! sid = None -> add_message sid msg sessions = ok sessions.
Proof. intros H. unfold add_message. by rewrite H. Qed.

Lemma add_message_present (sid : string) (msg : ConversationMessage)
    (sessions : gmap string (gmap string PyVal)) (sess : gmap string PyVal)
    (conv : list PyVal) :
  sessions !! sid = Some sess -> sess !! "conversation" = Some (PList conv) ->
  add_message sid msg sessions
  = ok (<[sid := <["conversation" := PList (conv ++ [message_to_dict msg])]> sess]>
          sessions).
Proof. intros Hs Hc. unfold add_message. by rewrite Hs, Hc. Qed.

(** The shape is kept by [add_message], so it holds of every session that
    was created and then only appended to. *)
Lemma add_message_keeps_conversation (sid : string) (msg : ConversationMessage)
    (sessions sessions' : gmap string (gmap string PyVal)) :
  (forall i sess, sessions !! i = Some sess -> has_conversation sess) ->
  add_message sid msg sessions = ok sessions' ->
  forall i sess, sessions' !! i = Some sess -> has_conversation sess.
Proof.
  intros Hall Hadd i sess Hi.
  destruct (sessions !! sid) as [s|] eqn:Hs.
  - destruct (Hall sid s Hs) as [conv Hconv].
    rewrite (add_message_present sid msg sessions s conv Hs Hconv) in Hadd.
    injection Hadd as <-.
    destruct (decide (sid = i)) as [->|Hne].
    + rewrite lookup_insert_eq in Hi. injection Hi as <-.
      eexists. apply lookup_insert_eq.
    + rewrite lookup_insert_ne in Hi by done. eauto.
  - rewrite (add_message_missing sid msg sessions Hs) in Hadd.
    injection Hadd as <-. eauto.
Qed.

End SessionStoreProperties.

(** ** Session Store, with object identity *)

Section SessionObjectProperties.
Import MemoryService SessionObjects SessionSpec.

Lemma alloc_fresh (o : Obj) (h : gmap positive Obj) :
  h !! (alloc o h).1 = None.
Proof. unfold alloc. simpl. apply not_elem_of_dom. apply is_fresh. Qed.

Lemma alloc_keeps (o : Obj) (h : gmap positive Obj) (l : positive) :
  is_Some (h !! l) -> (alloc o h).2 !! l = h !! l.
Proof.
  intros [x Hl]. unfold alloc. simpl. apply lookup_insert_ne.
  intros Heq. pose proof (alloc_fresh o h) as Hf. unfold alloc in Hf. simpl in Hf.
  rewrite Heq in Hf. congruence.
Qed.

(** The shape holds at the start and is kept by every operation. *)
Lemma store_init_allocated : sessions_allocated store_init.
Proof. intros sid ls H. simpl in H. by rewrite lookup_empty in H. Qed.

Lemma create_session_allocated (t1 t2 sid : string) (st : Store) :
  sessions_allocated st -> sessions_allocated (create_session t1 t2 sid st).
Proof.
  intros Hwf. unfold create_session.
  destruct (sessions st !! sid) eqn:Hs; [exact Hwf|].
  intros sid' ls'. simpl. destruct (decide (sid = sid')) as [->|Hne].
  - rewrite lookup_insert_eq. intros [= <-]. rewrite lookup_insert_eq. by eexists.
  - rewrite lookup_insert_ne by done. intros Hs'.
    destruct (Hwf sid' ls' Hs') as [d Hd]. exists d.
    assert (H1 : (alloc (OList []) (heap st)).2 !! ls' = Some (ODict d))
      by (rewrite alloc_keeps; [done | by eexists]).
    assert (H2 : (alloc (ODict ∅) (alloc (OList []) (heap st)).2).2 !! ls'
                 = Some (ODict d))
      by (rewrite alloc_keeps; [done | by eexists]).
    unfold alloc in H1, H2. simpl in H1, H2.
    rewrite lookup_insert_ne; [exact H2|].
    intros Heq. rewrite <- Heq in H2.
    pose proof (is_fresh (dom
      (<[fresh (dom (<[fresh (dom (heap st)):=OList []]> (heap st))):=ODict ∅]>
         (<[fresh (dom (heap st)):=OList []]> (heap st))))) as Hf.
    apply not_elem_of_dom in Hf. congruence.
Qed.

Lemma update_session_allocated (now sid : string) (data : gmap string Val)
    (st : Store) :
  sessions_allocated st -> sessions_allocated (update_session now sid data st).
Proof.
  intros Hwf. unfold update_session.
  destruct (sessions st !! sid) as [ls|] eqn:Hs; [|exact Hwf].
  destruct (heap st !! ls) as [[items|d]|] eqn:Hls; try exact Hwf.
  intros sid' ls' Hs'. simpl in *. destruct (decide (ls = ls')) as [->|Hne].
  - rewrite lookup_insert_eq. by eexists.
  - rewrite lookup_insert_ne by done. by apply (Hwf sid').
Qed.

Lemma delete_session_allocated (sid : string) (st : Store) :
  sessions_allocated st -> sessions_allocated (delete_session sid st).
Proof.
  intros Hwf. unfold delete_session.
  destruct (sessions st !! sid) eqn:Hs; [|exact Hwf].
  intros sid' ls'. simpl. intros Hs'.
  apply lookup_delete_Some in Hs' as [_ Hs']. by apply (Hwf sid').
Qed.


Lemma add_message_allocated (sid : string) (msg : ConversationMessage)
    (st st' : Store) :
  sessions_allocated st -> add_message sid msg st = ok st' ->
  sessions_allocated st'.
Proof.
  intros Hwf. unfold add_message.
  destruct (sessions st !! sid) as [ls|] eqn:Hs; [|by intros [= <-]].
  destruct (heap st !! ls) as [[items0|d]|] eqn:Hls; try done.
  destruct (d !! "conversation") as [[| | | | |lc]|] eqn:Hc; try done.
  destruct (heap st !! lc) as [[items|d']|] eqn:Hlc; try done.
  simpl. intros [= <-]. intros sid' ls' Hs'. simpl in *.
  destruct (Hwf sid' ls' Hs') as [d' Hd'].
  exists d'. rewrite lookup_insert_ne by congruence.
  rewrite lookup_insert_ne; [done|].
  intros Heq. pose proof (is_fresh (dom (heap st))) as Hf.
  apply not_elem_of_dom in Hf. congruence.
Qed.


End SessionObjectProperties.

Section SessionObjectExamples.
Import MemoryService SessionObjects SessionSpec.



(** The same through a second session: after [update_session] copied the
    fields of [s1] into [s2], a message added to [s1] is in the
    conversation of [s2] as well. *)
Example add_message_shared_between_sessions :
  exists st' : Store,
    add_message "s1" Samples.hello
      (update_session "t9" "s2" {[ "conversation" := VRef 1 ]}
         (create_session "t3" "t4" "s2" Samples.object_session)) = ok st'
    /\ field_items "s2" "conversation" st' = Some [VRef 7].
Proof. eexists. split; reflexivity. Qed.

End SessionObjectExamples.


(** ** Metrics Aggregator *)

Section MetricsProperties.
Import LoggerConfig.

(** With at least one email recorded the running average is updated by
    [(old_avg * (n - 1) + sample) / n] and nothing else changes. *)
Lemma record_response_time_nonzero (time_ms : float) (m : Metrics) :
  total_emails_processed m <> 0%Z ->
  record_response_time time_ms m
  = ok (set_avg_response_time_ms
          ((avg_response_time_ms m * float_of_Z (total_emails_processed m - 1)
            + time_ms) / float_of_Z (total_emails_processed m))%float m).
Proof.
  intros Hn. unfold record_response_time, float_div_int.
  destruct (Z.eqb_spec (total_emails_processed m) 0); [done|reflexivity].
Qed.

Lemma record_response_time_zero (time_ms : float) (m : Metrics) :
  total_emails_processed m = 0%Z ->
  record_response_time time_ms m = raise ZeroDivisionError "float division by zero".
Proof.
  intros Hn. unfold record_response_time, float_div_int. by rewrite Hn.
Qed.

(** C5, where the code departs from it.  In the initial state of the
    aggregator (all counters zero) [record_response_time] does not
    complete: for every sample it raises [ZeroDivisionError], because the
    divisor [n] is the total-processed counter, which is still zero. *)
Theorem record_response_time_initial_raises (time_ms : float) :
  record_response_time time_ms metrics_init
  = inl {| exn_class := ZeroDivisionError; exn_text := "float division by zero" |}.
Proof. reflexivity. Qed.

(** After one recorded email the first sample becomes the average. *)
Example record_response_time_first_sample :
  record_response_time 120%float (record_email_processed metrics_init)
  = ok (set_avg_response_time_ms 120%float (record_email_processed metrics_init)).
Proof. reflexivity. Qed.

End MetricsProperties.

(** ** Summarizer evaluator *)

Section EvaluatorProperties.
Import AgentEvaluator EvaluatorSpec.

(** The ground-truth map holds, for an id, the action of its last label. *)
Lemma build_truth_map_snoc (gts : list GroundTruth) (gt : GroundTruth) :
  build_truth_map (gts ++ [gt])
  = <[gt_email_id gt := true_action gt]> (build_truth_map gts).
Proof. unfold build_truth_map. by rewrite fold_left_app. Qed.

Lemma build_truth_map_lookup (gts : list GroundTruth) (i t : string) :
  build_truth_map gts !! i = Some t ->
  exists gt, In gt gts /\ gt_email_id gt = i /\ true_action gt = t.
Proof.
  induction gts as [|gt gts IH] using rev_ind; [done|].
  rewrite build_truth_map_snoc. intros H.
  destruct (decide (gt_email_id gt = i)) as [<-|Hne].
  - rewrite lookup_insert_eq in H. injection H as <-.
    exists gt. split; [apply in_or_app; right; by left | done].
  - rewrite lookup_insert_ne in H by done.
    destruct (IH H) as (g & Hin & Hg). exists g.
    split; [apply in_or_app; by left | done].
Qed.

Lemma eval_step_eq (truth_map : gmap string string) (correct : Z)
    (total_confidence : float) (p : Prediction) :
  eval_step truth_map (correct, total_confidence) p
  = match truth_map !! email_id p with
    | Some truth =>
        ((if String.eqb (lower (action p)) (lower truth)
          then correct + 1 else correct)%Z,
         (total_confidence + confidence p)%float)
    | None => (correct, total_confidence)
    end.
Proof. reflexivity. Qed.

(** The loop, from any starting pair of accumulators: the counter grows by
    the number of matching predictions, and the confidence accumulator is
    extended, in order, by the confidences of the predictions that have a
    ground-truth id. *)
Lemma eval_loop_from (truth_map : gmap string string) (ps : list Prediction)
    (correct : Z) (total_confidence : float) :
  fold_left (eval_step truth_map) ps (correct, total_confidence)
  = ((correct + matched_count truth_map ps)%Z,
     fold_left PrimFloat.add
       (map confidence (List.filter (has_truth truth_map) ps)) total_confidence).
Proof.
  revert correct total_confidence.
  induction ps as [|p ps IH]; intros correct total_confidence.
  - unfold matched_count. simpl. f_equal. lia.
  - cbn [fold_left]. rewrite eval_step_eq.
    unfold matched_count in *. cbn [List.filter].
    unfold action_matches at 1, has_truth at 1.
    destruct (truth_map !! email_id p) as [truth|] eqn:Hp.
    + rewrite IH. cbn [map fold_left].
      destruct (String.eqb (lower (action p)) (lower truth)); cbn [length];
        f_equal; lia.
    + rewrite IH. reflexivity.
Qed.

Lemma eval_loop (truth_map : gmap string string) (ps : list Prediction) :
  fold_left (eval_step truth_map) ps (0%Z, 0%float)
  = (matched_count truth_map ps, matched_confidence truth_map ps).
Proof. rewrite eval_loop_from. reflexivity. Qed.

(** C6.  [evaluate_actions] counts the predictions whose action matches,
    case-insensitively, the ground-truth action recorded for the same id;
    accuracy is that count divided by the total number of predictions;
    average confidence is the sum of the confidences of the predictions
    that have a ground-truth id, divided by the same total; with no
    prediction both are [0.0]; and the two predictions ("1", "Archive"),
    ("2", "reply") against the single label ("1", "archive") give an
    accuracy of [0.5] and an average confidence of the first confidence
    over 2. *)
Theorem evaluate_actions_spec (predictions : list Prediction)
    (ground_truth : list GroundTruth) :
  total_predictions (evaluate_actions predictions ground_truth)
    = Z.of_nat (length predictions)
  /\ correct_predictions (evaluate_actions predictions ground_truth)
    = matched_count (build_truth_map ground_truth) predictions
  /\ accuracy (evaluate_actions predictions ground_truth)
    = (if (0 <? Z.of_nat (length predictions))%Z
       then (float_of_Z (matched_count (build_truth_map ground_truth) predictions)
             / float_of_Z (Z.of_nat (length predictions)))%float
       else 0%float)
  /\ avg_confidence (evaluate_actions predictions ground_truth)
    = (if (0 <? Z.of_nat (length predictions))%Z
       then (matched_confidence (build_truth_map ground_truth) predictions
             / float_of_Z (Z.of_nat (length predictions)))%float
       else 0%float)
  /\ accuracy (evaluate_actions [] ground_truth) = 0%float
  /\ avg_confidence (evaluate_actions [] ground_truth) = 0%float
  /\ (forall c1 c2 : float,
        accuracy (evaluate_actions (Samples.two_predictions c1 c2) Samples.one_truth)
          = 0.5%float
        /\ avg_confidence
             (evaluate_actions (Samples.two_predictions c1 c2) Samples.one_truth)
          = ((0 + c1) / 2)%float).
Proof.
  unfold evaluate_actions. rewrite !eval_loop. simpl.
  repeat split; reflexivity.
Qed.

(** The denominator is the number of predictions, not of matched ones: an
    extra prediction without a label lowers the accuracy. *)
Example accuracy_counts_unmatched (c1 c2 : float) :
  accuracy (evaluate_actions (Samples.two_predictions c1 c2) Samples.one_truth)
    = 0.5%float
  /\ accuracy (evaluate_actions (take 1 (Samples.two_predictions c1 c2))
                                Samples.one_truth)
    = 1%float.
Proof. split; reflexivity. Qed.

End EvaluatorProperties.

(** ** Agent pipeline: the action stage *)

Section ActionStageProperties.
Import AgentsOrchestrator PipelineSpec.

Variable env : Collaborators.

Ltac run :=
  unfold execute_action, execute_action_body, entered_action, after_log,
         client_calls, mbind, M_bind, bind, mret, M_ret, ret,
         log, emit, lift, try_except, any_exception, utcnow; simpl.

Lemma client_calls_log (w : World) (who : Component) (lvl : Level)
    (template : string) (args : list PyVal) (n : nat) :
  client_calls {| clock_reads := n;
                  events := events w ++ [Logged who lvl template args] |}
  = client_calls w.
Proof.
  unfold client_calls. simpl. rewrite List.filter_app. simpl. apply app_nil_r.
Qed.

(** C1.  With [requires_approval = true], whatever the summary and its
    suggested action, [execute_action] returns an [ActionResult] whose
    status is [pending_approval], and the calls made on the client objects
    are the ones made before: the executor is not called, the one event
    added is a log record. *)
Theorem execute_action_requires_approval (summary : SummaryResult) (w : World) :
  exists (r : ActionResult) (w' : World),
    execute_action env summary true w = (inr r, w')
    /\ status r = "pending_approval"
    /\ client_calls w' = client_calls w
    /\ exists record : Event,
         events w' = (events w ++ [record])%list /\ is_client_call record = false.
Proof.
  eexists _, _. split; [run; reflexivity|]. split; [reflexivity|].
  split; [apply client_calls_log|].
  eexists. split; reflexivity.
Qed.

(** The [try] body raises exactly when the suggested action has no
    [lower] method, that is, when it is not a string. *)
Lemma execute_action_body_string (summary : SummaryResult) (a : string) (w : World) :
  suggested_action summary = PStr a ->
  exists (r : ActionResult) (w' : World),
    execute_action_body env summary w = (inr r, w')
    /\ action r = PStr (lower a)
    /\ ar_email_id r = email_id summary
    /\ status r
       = (if String.eqb (lower a) "archive" then "success"
          else if String.eqb (lower a) "reply" then "pending_approval"
          else "success")
    /\ message r
       = Some (if String.eqb (lower a) "archive" then "Archived"
               else if String.eqb (lower a) "reply" then "Ready for human reply"
               else "Escalated to human review").
Proof.
  intros Ha. run. rewrite Ha. simpl.
  destruct (String.eqb (lower a) "archive"); [|destruct (String.eqb (lower a) "reply")];
    simpl; eexists _, _; repeat split; reflexivity.
Qed.

Lemma execute_action_body_raises (summary : SummaryResult) (w w1 : World) (e : PyExn) :
  execute_action_body env summary w = (inl e, w1) ->
  py_lower (suggested_action summary) = inl e /\ w1 = w.
Proof.
  run. destruct (py_lower (suggested_action summary)) as [e'|a] eqn:Hl; simpl.
  - intros [= <- <-]. done.
  - destruct (if String.eqb a "archive" then _ else _) as [st msg]. simpl.
    intros [=].
Qed.

Lemma py_lower_non_string (v : PyVal) :
  (forall a : string, v <> PStr a) ->
  py_lower v
  = inl {| exn_class := AttributeError;
           exn_text := "'" ++ type_name v ++ "' object has no attribute 'lower'" |}.
Proof. intros Hv. destruct v; try reflexivity. by destruct (Hv s). Qed.

(** C2, as the code has it.  With [requires_approval = false] and a
    suggested action that is a string, the result is decided by the
    lower-cased action: [archive] gives status [success] (the branch makes
    no call on the executor, so nothing in it can fail); [reply] gives
    [pending_approval]; any other string, [escalate] included, gives
    [success] with the message of a human escalation; and no client call
    is made.  A suggested action that is not a string has no [lower]: the
    handler returns status [failed] with the text of the exception as
    message, and the action as it was given. *)
Theorem execute_action_dispatch (summary : SummaryResult) (w : World) :
  (forall a : string,
      suggested_action summary = PStr a ->
      exists (r : ActionResult) (w' : World),
        execute_action env summary false w = (inr r, w')
        /\ (lower a = "archive" -> status r = "success")
        /\ (lower a = "reply" -> status r = "pending_approval")
        /\ (lower a <> "archive" -> lower a <> "reply" ->
            status r = "success"
            /\ message r = Some "Escalated to human review")
        /\ client_calls w' = client_calls w)
  /\ ((forall a : string, suggested_action summary <> PStr a) ->
      exists (r : ActionResult) (w' : World),
        execute_action env summary false w = (inr r, w')
        /\ status r = "failed"
        /\ message r
           = Some ("'" ++ type_name (suggested_action summary)
                       ++ "' object has no attribute 'lower'")
        /\ action r = suggested_action summary
        /\ client_calls w' = client_calls w).
Proof.
  split.
  - intros a Ha. run. rewrite Ha. simpl.
    destruct (String.eqb_spec (lower a) "archive") as [Harch|Harch];
      [|destruct (String.eqb_spec (lower a) "reply") as [Hrep|Hrep]];
      simpl; eexists _, _; (split; [reflexivity|]); simpl;
      (split; [|split; [|split]]);
      try done; try (rewrite ?List.filter_app; simpl; by rewrite !app_nil_r);
      try (intros H; rewrite H in *; done).
  - intros Hv. run. rewrite (py_lower_non_string _ Hv). simpl.
    eexists _, _. split; [reflexivity|]. simpl.
    split; [reflexivity|]. split; [reflexivity|]. split; [reflexivity|].
    rewrite ?List.filter_app. simpl. by rewrite !app_nil_r.
Qed.

(** C8, as the code has it.  Without approval, and for a string, the
    [action] field of the result is the lower-cased suggested action; with
    approval required the [action] field is the suggested action itself,
    unchanged. *)
Theorem action_field_by_path (summary : SummaryResult) (w : World) :
  (forall a : string,
      suggested_action summary = PStr a ->
      exists (r : ActionResult) (w' : World),
        execute_action env summary false w = (inr r, w')
        /\ action r = PStr (lower a))
  /\ (exists (r : ActionResult) (w' : World),
        execute_action env summary true w = (inr r, w')
        /\ action r = suggested_action summary).
Proof.
  split.
  - intros a Ha.
    destruct (execute_action_body_string summary a (entered_action summary w) Ha)
      as (r & w' & Hrun & Hact & _).
    exists r, w'. split; [|exact Hact].
    revert Hrun. run. intros ->. reflexivity.
  - eexists _, _. split; [run; reflexivity | reflexivity].
Qed.

End ActionStageProperties.

Section ActionStageExamples.
Import AgentsOrchestrator.

(** An upper-case [ARCHIVE] is archived; the JSON null in place of the
    action fails with the text of the [AttributeError]. *)
Lemma execute_action_dispatch_witness :
  (exists (r : ActionResult) (w' : World),
      execute_action Samples.prose_env (Samples.suggestion (PStr "ARCHIVE")) false
                     Samples.world0 = (inr r, w')
      /\ status r = "success")
  /\ (exists (r : ActionResult) (w' : World),
        execute_action Samples.prose_env (Samples.suggestion PNone) false
                       Samples.world0 = (inr r, w')
        /\ status r = "failed"
        /\ message r = Some "'NoneType' object has no attribute 'lower'").
Proof.
  split.
  - destruct (execute_action_dispatch Samples.prose_env
                (Samples.suggestion (PStr "ARCHIVE")) Samples.world0) as [Hstr _].
    destruct (Hstr "ARCHIVE" eq_refl) as (r & w' & Hrun & Harch & _).
    exists r, w'. split; [exact Hrun | exact (Harch eq_refl)].
  - destruct (execute_action_dispatch Samples.prose_env
                (Samples.suggestion PNone) Samples.world0) as [_ Hother].
    destruct (Hother ltac:(discriminate)) as (r & w' & Hrun & Hst & Hmsg & _).
    exists r, w'. split; [exact Hrun|]. split; [exact Hst | exact Hmsg].
Defined.

(** C2 as written fails for a suggested action that is not a string, such
    as the number the summarizer copies out of a response whose [action]
    field is [3]: it is neither [archive] nor [reply], and the status is
    [failed], not [success]. *)
Lemma non_string_action_fails :
  execute_action Samples.prose_env (Samples.suggestion (PInt 3)) false Samples.world0
  = (inr {| ar_email_id := "m1"; action := PInt 3; status := "failed";
            message := Some "'int' object has no attribute 'lower'";
            ar_timestamp := "2024-01-01T00:00:00" |},
     {| clock_reads := 1;
        events :=
          [Logged Actor INFO "ActionAgent: executing action '{}' for email {}"
                  [PInt 3; PStr "m1"];
           Logged Actor ERROR "ActionAgent error: {}"
                  [PStr "'int' object has no attribute 'lower'"]] |})
  /\ "failed" <> "success".
Proof. split; [reflexivity | discriminate]. Qed.

(** A mixed-case [Reply] is recorded as [reply] when no approval is required. *)
Lemma action_field_by_path_witness :
  exists (r : ActionResult) (w' : World),
    execute_action Samples.prose_env (Samples.suggestion (PStr "Reply")) false
                   Samples.world0 = (inr r, w')
    /\ action r = PStr "reply".
Proof.
  destruct (action_field_by_path Samples.prose_env (Samples.suggestion (PStr "Reply")) Samples.world0)
    as [Hstr _].
  exact (Hstr "Reply" eq_refl).
Defined.

(** C8 as written fails when approval is required: the suggested action
    [Archive] comes back with its capital letter. *)
Lemma approval_path_keeps_case :
  AgentsOrchestrator.execute_action Samples.prose_env
    (Samples.suggestion (PStr "Archive")) true Samples.world0
  = (inr {| AgentsOrchestrator.ar_email_id := "m1";
            AgentsOrchestrator.action := PStr "Archive";
            AgentsOrchestrator.status := "pending_approval";
            AgentsOrchestrator.message := Some "Awaiting human approval";
            AgentsOrchestrator.ar_timestamp := "2024-01-01T00:00:00" |},
     {| AgentsOrchestrator.clock_reads := 1;
        AgentsOrchestrator.events :=
          [AgentsOrchestrator.Logged AgentsOrchestrator.Actor AgentsOrchestrator.INFO
             "ActionAgent: executing action '{}' for email {}"
             [PStr "Archive"; PStr "m1"]] |})
  /\ PStr "Archive" <> PStr (lower "Archive").
Proof. split; [reflexivity | discriminate]. Qed.

End ActionStageExamples.

(** ** Agent pipeline: the summarize stage *)

Section SummarizeStageProperties.
Import AgentsOrchestrator PipelineSpec.

Variable env : Collaborators.

Ltac run :=
  unfold summarize_and_suggest, entered_summarizer, after_log,
         call_summarize_emails, mbind, M_bind, bind, mret, M_ret, ret,
         log, emit, lift, try_except, any_exception, utcnow; simpl.

(** Parsing touches nothing outside. *)
Lemma parse_response_world (text : string) (w : World) :
  (parse_response env text w).2 = w.
Proof.
  unfold parse_response, mbind, M_bind, bind, mret, M_ret, ret, lift, try_except.
  simpl.
  destruct (json_loads env text) as [e|v]; simpl.
  { by destruct (is_json_decode_error e). }
  destruct (py_get v "summary" (PStr text)) as [e|s]; simpl.
  { by destruct (is_json_decode_error e). }
  destruct (py_get v "action" (PStr "escalate")) as [e|a]; simpl.
  { by destruct (is_json_decode_error e). }
  destruct (py_get v "confidence" (PFloat 0.5)) as [e|c]; simpl.
  { by destruct (is_json_decode_error e). }
  destruct (py_float env c) as [e|f]; simpl; [|done].
  by destruct (is_json_decode_error e).
Qed.

(** A response the parser rejects gives the degraded triple. *)
Lemma parse_response_not_json (text : string) (e : PyExn) (w : World) :
  json_loads env text = inl e -> is_json_decode_error e = true ->
  parse_response env text w = (inr (PStr text, PStr "escalate", 0.5%float), w).
Proof.
  intros Hload Hdec.
  unfold parse_response, mbind, M_bind, bind, mret, M_ret, ret, lift, try_except.
  simpl. rewrite Hload. simpl. by rewrite Hdec.
Qed.

(** Whatever the collaborators do, the stage returns a summary of the email
    it was given. *)
Lemma summarize_and_suggest_returns (email : EmailMessage) (w : World) :
  exists (r : SummaryResult) (w' : World),
    summarize_and_suggest env email w = (inr r, w') /\ email_id r = id email.
Proof.
  run.
  destruct (summarize_emails env _ [email]) as [e|text]; simpl.
  { eexists _, _. split; reflexivity. }
  match goal with |- context [parse_response env text ?w0] =>
    pose proof (parse_response_world text w0) as Hw;
    destruct (parse_response env text w0) as [[e|[[s a] c]] w1]
  end; simpl in *; subst w1; eexists _, _; split; reflexivity.
Qed.

(** C3.  When the collaborator answers with text the JSON parser rejects,
    [summarize_and_suggest] returns a summary whose text is the raw
    response, whose suggested action is [escalate] and whose confidence is
    [0.5]; when the collaborator raises, it returns confidence [0.0], the
    summary text [(summarization failed)] and the action [escalate]; and in
    every case, these two included, it returns a result and raises
    nothing. *)
Theorem summarize_and_suggest_fallbacks (email : EmailMessage) (w : World) :
  (forall (text : string) (e : PyExn),
      summarize_emails env (entered_summarizer email w) [email] = inr text ->
      json_loads env text = inl e -> is_json_decode_error e = true ->
      exists (r : SummaryResult) (w' : World),
        summarize_and_suggest env email w = (inr r, w')
        /\ summary r = PStr text
        /\ suggested_action r = PStr "escalate"
        /\ confidence r = 0.5%float)
  /\ (forall e : PyExn,
        summarize_emails env (entered_summarizer email w) [email] = inl e ->
        exists (r : SummaryResult) (w' : World),
          summarize_and_suggest env email w = (inr r, w')
          /\ confidence r = 0%float
          /\ summary r = PStr "(summarization failed)"
          /\ suggested_action r = PStr "escalate")
  /\ (exists (r : SummaryResult) (w' : World),
        summarize_and_suggest env email w = (inr r, w')).
Proof.
  split; [|split].
  - intros text e Hcall Hload Hdec. revert Hcall. run. intros ->. simpl.
    rewrite (parse_response_not_json text e _ Hload Hdec). simpl.
    eexists _, _. repeat split; reflexivity.
  - intros e. run. intros ->. simpl.
    eexists _, _. repeat split; reflexivity.
  - destruct (summarize_and_suggest_returns email w) as (r & w' & H & _). eauto.
Qed.

End SummarizeStageProperties.

Section SummarizeStageExamples.
Import AgentsOrchestrator.

(** A prose answer is kept as the summary and escalated at confidence
    [0.5]; a client that is down gives the failure summary at [0.0]. *)
Lemma summarize_and_suggest_fallbacks_witness :
  (exists (r : SummaryResult) (w' : World),
      summarize_and_suggest Samples.prose_env Samples.invoice Samples.world0
        = (inr r, w')
      /\ summary r = PStr "An invoice; archive it."
      /\ suggested_action r = PStr "escalate"
      /\ confidence r = 0.5%float)
  /\ (exists (r : SummaryResult) (w' : World),
        summarize_and_suggest Samples.failing_env Samples.invoice Samples.world0
          = (inr r, w')
        /\ confidence r = 0%float
        /\ summary r = PStr "(summarization failed)"
        /\ suggested_action r = PStr "escalate").
Proof.
  split.
  - destruct (summarize_and_suggest_fallbacks Samples.prose_env Samples.invoice
                Samples.world0) as [Hnot_json _].
    exact (Hnot_json "An invoice; archive it." _ eq_refl eq_refl eq_refl).
  - destruct (summarize_and_suggest_fallbacks Samples.failing_env Samples.invoice
                Samples.world0) as (_ & Hraise & _).
    exact (Hraise _ eq_refl).
Defined.

(** A response that parses, but not to an object, has no [get]: the
    [AttributeError] is absorbed by the outer handler. *)
Example summarize_and_suggest_non_object :
  (summarize_and_suggest
     {| list_unread_emails := list_unread_emails Samples.prose_env;
        summarize_emails := fun _ _ => ok "42";
        json_loads := json_loads Samples.prose_env;
        float_of_str := float_of_str Samples.prose_env;
        utcnow_isoformat := utcnow_isoformat Samples.prose_env |}
     Samples.invoice Samples.world0).1
  = inr {| email_id := "m1"; summary := PStr "(summarization failed)";
           suggested_action := PStr "escalate"; confidence := 0%float;
           timestamp := "2024-01-01T00:00:00" |}.
Proof. reflexivity. Qed.

End SummarizeStageExamples.

(** ** Agent pipeline: one pass over the inbox *)

Section PipelineProperties.
Import AgentsOrchestrator PipelineSpec.

Variable env : Collaborators.

Ltac run_m := unfold mbind, M_bind, bind, mret, M_ret, ret; simpl.

Lemma mbind_returns {A B : Type} (m : M A) (k : A -> M B) (w w1 : World) (a : A) :
  m w = (inr a, w1) -> (m ≫= k) w = k a w1.
Proof. intros H. run_m. by rewrite H. Qed.

(** A loop whose body always returns, returns: one result per item, in
    order, each related to its item by whatever the body guarantees. *)
Lemma for_each_returns {A B : Type} (f : A -> M B) (P : A -> B -> Prop) :
  (forall x w, exists y w', f x w = (inr y, w') /\ P x y) ->
  forall (l : list A) (w : World),
    exists (ys : list B) (w' : World),
      for_each f l w = (inr ys, w') /\ Forall2 P l ys.
Proof.
  intros Hf. induction l as [|x l IH]; intros w.
  - exists [], w. split; [reflexivity | constructor].
  - destruct (Hf x w) as (y & w1 & Hx & HP).
    destruct (IH w1) as (ys & w2 & Hl & HPs).
    exists (y :: ys), w2. split; [|by constructor].
    simpl. run_m. rewrite Hx, Hl. reflexivity.
Qed.

(** The action stage always returns a result for the summary it got. *)
Lemma execute_action_returns (s : SummaryResult) (requires_approval : bool)
    (w : World) :
  exists (r : ActionResult) (w' : World),
    execute_action env s requires_approval w = (inr r, w')
    /\ ar_email_id r = email_id s.
Proof.
  unfold execute_action, execute_action_body, log, emit, lift, try_except,
         any_exception, utcnow. run_m.
  destruct requires_approval; simpl; [eexists _, _; split; reflexivity|].
  destruct (py_lower (suggested_action s)) as [e|a]; simpl.
  { eexists _, _. split; reflexivity. }
  destruct (if String.eqb a "archive" then _ else _) as [st msg]. simpl.
  eexists _, _. split; reflexivity.
Qed.

(** The fetch stage absorbs a failing client, and what it adds to the
    events is its own log records and its call on the mail client. *)
Lemma fetch_emails_returns (max_results : Z) (w : World) :
  exists (emails : list EmailMessage) (added : list Event),
    fetch_emails env max_results w
    = (inr emails, {| clock_reads := clock_reads w; events := events w ++ added |})
    /\ List.filter from_later_stage added = [].
Proof.
  unfold fetch_emails, call_list_unread_emails, log, emit, try_except,
         any_exception. run_m.
  destruct (list_unread_emails env _ max_results) as [e|raw]; simpl;
    eexists _, _; (split; [rewrite <- !app_assoc; reflexivity | reflexivity]).
Qed.

(** C7.  [process_inbox] returns a report for every batch.  Its summaries
    and actions are as many as the fetched items, [total_emails] is their
    number, and the i-th summary and the i-th action carry the id of the
    i-th fetched item.  When the fetch yields nothing the two lists are
    empty, the count is zero, and no event of the summarize or action stage
    (a log record of theirs, a call on the summarization client) has been
    added: the two stages were not entered. *)
Theorem process_inbox_aligned (max_emails : Z) (require_approval : bool) (w : World) :
  exists (emails : list EmailMessage) (w1 : World) (report : Report) (w' : World),
    fetch_emails env max_emails (entered_orchestrator w) = (inr emails, w1)
    /\ process_inbox env max_emails require_approval w = (inr report, w')
    /\ length (summaries report) = length emails
    /\ length (actions report) = length emails
    /\ total_emails report = Z.of_nat (length emails)
    /\ (forall (i : nat) (email : EmailMessage),
          emails !! i = Some email ->
          exists (s : SummaryResult) (a : ActionResult),
            summaries report !! i = Some s
            /\ actions report !! i = Some a
            /\ email_id s = id email
            /\ ar_email_id a = id email)
    /\ (emails = [] ->
        summaries report = [] /\ actions report = []
        /\ total_emails report = 0%Z
        /\ List.filter from_later_stage (events w')
           = List.filter from_later_stage (events w)).
Proof.
  destruct (fetch_emails_returns max_emails (entered_orchestrator w))
    as (emails & added & Hfetch & Hadded).
  exists emails. eexists. 
  destruct emails as [|email0 rest].
  - eexists _, _. split; [exact Hfetch|]. split.
    { unfold process_inbox.
      rewrite (mbind_returns _ _ w (entered_orchestrator w) tt) by reflexivity.
      rewrite (mbind_returns _ _ _ _ _ Hfetch). reflexivity. }
    simpl. repeat split; try done.
    rewrite !List.filter_app, Hadded. simpl. by rewrite !app_nil_r.
  - destruct (for_each_returns (summarize_and_suggest env)
                (fun e s => email_id s = id e)
                (summarize_and_suggest_returns env) (email0 :: rest)
                {| clock_reads := clock_reads (entered_orchestrator w);
                   events := events (entered_orchestrator w) ++ added |})
      as (ss & w2 & Hss & Hal1).
    destruct (for_each_returns (fun s => execute_action env s require_approval)
                (fun s a => ar_email_id a = email_id s)
                (fun s w0 => execute_action_returns s require_approval w0) ss w2)
      as (acts & w3 & Hacts & Hal2).
    eexists _, _. split; [exact Hfetch|]. split.
    { unfold process_inbox.
      rewrite (mbind_returns _ _ w (entered_orchestrator w) tt) by reflexivity.
      rewrite (mbind_returns _ _ _ _ _ Hfetch). cbv iota beta.
      rewrite (mbind_returns _ _ _ _ _ Hss).
      rewrite (mbind_returns _ _ _ _ _ Hacts). reflexivity. }
    pose proof (Forall2_length _ _ _ Hal1) as Hl1.
    pose proof (Forall2_length _ _ _ Hal2) as Hl2.
    cbn [summaries actions total_emails].
    split; [lia|]. split; [lia|]. split; [reflexivity|]. split; [|done].
    intros i email Hi.
    destruct (Forall2_lookup_l _ _ _ _ _ Hal1 Hi) as (s & Hs & Hids).
    destruct (Forall2_lookup_l _ _ _ _ _ Hal2 Hs) as (a & Ha & Hida).
    exists s, a. repeat split; [done..|]. congruence.
Qed.

End PipelineProperties.

Section PipelineExamples.
Import AgentsOrchestrator PipelineSpec.

(** One unread message, approval required: one summary, one pending
    action, both for message [m1]. *)
Example process_inbox_one_message :
  (process_inbox Samples.prose_env 10 true Samples.world0).1
  = inr {| total_emails := 1;
           summaries :=
             [ {| email_id := "m1"; summary := PStr "An invoice; archive it.";
                  suggested_action := PStr "escalate"; confidence := 0.5%float;
                  timestamp := "2024-01-01T00:00:00" |} ];
           actions :=
             [ {| ar_email_id := "m1"; action := PStr "escalate";
                  status := "pending_approval";
                  message := Some "Awaiting human approval";
                  ar_timestamp := "2024-01-01T00:00:00" |} ];
           report_timestamp := "2024-01-01T00:00:00" |}.
Proof. reflexivity. Qed.

(** An empty inbox: the events are the orchestrator's and the fetcher's. *)
Example process_inbox_empty_inbox :
  process_inbox Samples.failing_env 10 false Samples.world0
  = (inr {| total_emails := 0; summaries := []; actions := [];
            report_timestamp := "2024-01-01T00:00:00" |},
     {| clock_reads := 1;
        events :=
          [ Logged Orchestrator INFO "Orchestrator: starting process_inbox" [];
            Logged Fetcher INFO "EmailFetcherAgent: fetching up to {} unread emails"
                   [PInt 10];
            GmailListUnread 10;
            Logged Fetcher INFO "EmailFetcherAgent: fetched {} emails" [PInt 0];
            Logged Orchestrator INFO "Orchestrator: no emails to process" [] ] |}).
Proof. reflexivity. Qed.

(** Entering the summarize stage always leaves a trace, so the absence of
    its events does mean it was not entered. *)
Example summarize_stage_leaves_events :
  List.filter from_later_stage
    (events (summarize_and_suggest Samples.failing_env Samples.invoice
               Samples.world0).2)
  <> [].
Proof. discriminate. Qed.

End PipelineExamples.

(** * Further properties of the code *)

(** ** Memory Bank: store, retrieve and delete together *)

Section MemoryBankComposition.
Import MemoryService.

Lemma store_lookup (stored_at : Z) (k : string) (v : PyVal) (ttl : option Z)
    (memory : gmap string MemoryEntry) :
  store stored_at k v ttl memory !! k
  = Some {| key := k; value := v; timestamp := stored_at; ttl_seconds := ttl |}.
Proof. unfold store. apply lookup_insert_eq. Qed.

Lemma retrieve_bank_lookup (now : Z) (k k' : string)
    (memory : gmap string MemoryEntry) :
  k' <> k -> (retrieve now k memory).2 !! k' = memory !! k'.
Proof.
  intros Hne. unfold retrieve.
  destruct (memory !! k) as [entry|]; [|done].
  destruct (truthy_opt_int (ttl_seconds entry)); [|done].
  destruct (elapsed_exceeds _ _ _); [|done].
  simpl. by rewrite lookup_delete_ne.
Qed.

Lemma retrieve_none_bank (now : Z) (k : string) (memory : gmap string MemoryEntry) :
  (retrieve now k memory).1 = None -> (retrieve now k memory).2 !! k = None.
Proof.
  unfold retrieve. destruct (memory !! k) as [entry|] eqn:Hk; [|done].
  destruct (truthy_opt_int (ttl_seconds entry)); [|done].
  destruct (elapsed_exceeds _ _ _); [|done].
  intros _. simpl. apply lookup_delete_eq.
Qed.

Lemma retrieve_some_bank (now : Z) (k : string) (memory : gmap string MemoryEntry)
    (v : PyVal) :
  (retrieve now k memory).1 = Some v -> (retrieve now k memory).2 = memory.
Proof.
  unfold retrieve. destruct (memory !! k) as [entry|] eqn:Hk; [|done].
  destruct (truthy_opt_int (ttl_seconds entry)); [|done].
  by destruct (elapsed_exceeds _ _ _).
Qed.

(** X1.  A value stored with no TTL, or with a TTL that the time elapsed
    since the store does not exceed, is what [retrieve] returns, whatever
    the bank held under that key before, and the read leaves the bank as
    the store made it. *)
Theorem store_then_retrieve_within_ttl (stored_at now : Z) (k : string) (v : PyVal)
    (ttl : option Z) (memory : gmap string MemoryEntry) :
  (forall t : Z, ttl = Some t -> (now - stored_at <= t * 1000000)%Z) ->
  retrieve now k (store stored_at k v ttl memory)
  = (Some v, store stored_at k v ttl memory).
Proof.
  intros Hfresh. destruct ttl as [t|].
  - apply (retrieve_fresh now k _ _ t (store_lookup stored_at k v (Some t) memory));
      [reflexivity|]. simpl. by apply Hfresh.
  - by apply (retrieve_falsy_ttl now k _ _ (store_lookup stored_at k v None memory)).
Qed.

Lemma store_then_retrieve_within_ttl_witness :
  retrieve 1000000 "k" (store 0 "k" (PStr "v") (Some 1%Z) memory_init)
  = (Some (PStr "v"), store 0 "k" (PStr "v") (Some 1%Z) memory_init).
Proof.
  apply store_then_retrieve_within_ttl. intros t [= <-]. lia.
Defined.

(** X2.  A negative TTL expires at once: read at the instant of the store,
    or at any later one, the entry is reported absent and removed, so the
    bank is the old one without the key. *)
Theorem store_negative_ttl_expires_at_once (stored_at now : Z) (k : string)
    (v : PyVal) (t : Z) (memory : gmap string MemoryEntry) :
  (t < 0)%Z -> (stored_at <= now)%Z ->
  retrieve now k (store stored_at k v (Some t) memory) = (None, delete k memory).
Proof.
  intros Hneg Hlater.
  rewrite (retrieve_expired now k _ _ t (store_lookup stored_at k v (Some t) memory));
    [|reflexivity|lia|simpl; lia].
  unfold store. by rewrite delete_insert_eq.
Qed.

Lemma store_negative_ttl_expires_at_once_witness :
  retrieve 0 "k" (store 0 "k" (PStr "v") (Some (-1)%Z) memory_init)
  = (None, delete "k" memory_init).
Proof. apply store_negative_ttl_expires_at_once; lia. Defined.

(** X3.  Once [retrieve] has reported a key absent (never stored, deleted,
    or just found expired), every later [retrieve] of that key on the bank
    it left reports absent again, at whatever time, and changes nothing:
    only a new [store] brings the key back. *)
Theorem retrieve_absent_is_stable (now now' : Z) (k : string)
    (memory : gmap string MemoryEntry) :
  (retrieve now k memory).1 = None ->
  retrieve now' k (retrieve now k memory).2 = (None, (retrieve now k memory).2).
Proof.
  intros Hnone. apply retrieve_absent. by apply retrieve_none_bank.
Qed.

Lemma retrieve_absent_is_stable_witness :
  retrieve 0 "k" (retrieve 2000000 "k" Samples.bank_one_second).2
  = (None, (retrieve 2000000 "k" Samples.bank_one_second).2).
Proof. apply retrieve_absent_is_stable. reflexivity. Defined.

(** X4.  [retrieve] removes at most the key it was asked for: a key is
    listed afterwards exactly when it was listed before and is not the key
    just reported absent; and reading any other key, at any time, gives the
    same answer after the read as before it. *)
Theorem retrieve_touches_only_its_key (now now' : Z) (k k' : string)
    (memory : gmap string MemoryEntry) :
  (k' ∈ list_keys (retrieve now k memory).2
   <-> k' ∈ list_keys memory /\ ~ (k' = k /\ (retrieve now k memory).1 = None))
  /\ (k' <> k ->
      (retrieve now' k' (retrieve now k memory).2).1 = (retrieve now' k' memory).1).
Proof.
  split.
  - rewrite !list_keys_elem. destruct (decide (k' = k)) as [->|Hne].
    + destruct ((retrieve now k memory).1) as [v|] eqn:Hres.
      * rewrite (retrieve_some_bank now k memory v Hres).
        split; [intros H; split; [done | by intros [_ ?]] | by intros [? _]].
      * rewrite (retrieve_none_bank now k memory Hres).
        split; [by intros [? ?] | intros [_ Hn]; exfalso; by apply Hn].
    + rewrite retrieve_bank_lookup by done.
      split; [intros H; split; [done | by intros [? _]] | by intros [? _]].
  - intros Hne. unfold retrieve at 1 3.
    rewrite retrieve_bank_lookup by done.
    destruct (memory !! k') as [entry|]; [|done].
    destruct (truthy_opt_int (ttl_seconds entry)); [|done].
    by destruct (elapsed_exceeds _ _ _).
Qed.

(** Expiry is lazy: an entry whose non-zero TTL has run out is still
    listed by [list_keys] as long as nobody reads it, although [retrieve]
    would report it absent. *)
Theorem expired_entry_still_listed (now : Z) (k : string)
    (memory : gmap string MemoryEntry) (entry : MemoryEntry) (t : Z) :
  memory !! k = Some entry -> ttl_seconds entry = Some t -> t <> 0%Z ->
  (t * 1000000 < now - timestamp entry)%Z ->
  k ∈ list_keys memory /\ (retrieve now k memory).1 = None.
Proof.
  intros Hk Httl Hnz Hold. split.
  - apply list_keys_elem. by eexists.
  - by rewrite (retrieve_expired now k memory entry t).
Qed.

Lemma expired_entry_still_listed_witness :
  "k" ∈ list_keys Samples.bank_one_second
  /\ (retrieve 2000000 "k" Samples.bank_one_second).1 = None.
Proof.
  apply (expired_entry_still_listed 2000000 "k" Samples.bank_one_second
           {| key := "k"; value := PStr "v"; timestamp := 0;
              ttl_seconds := Some 1%Z |} 1%Z);
    [reflexivity | reflexivity | lia | simpl; lia].
Defined.

(** X5.  [delete] removes exactly its key: afterwards [retrieve] reports
    it absent and [list_keys] omits it, every other key keeps its entry,
    and deleting a key that is not stored changes nothing. *)
Theorem delete_removes_exactly_its_key (now : Z) (k k' : string)
    (memory : gmap string MemoryEntry) :
  retrieve now k (delete_key k memory) = (None, delete_key k memory)
  /\ (k ∉ list_keys (delete_key k memory))
  /\ (k' <> k -> delete_key k memory !! k' = memory !! k')
  /\ (memory !! k = None -> delete_key k memory = memory).
Proof.
  assert (Hgone : delete_key k memory !! k = None).
  { unfold delete_key. destruct (memory !! k) eqn:Hk; [apply lookup_delete_eq|done]. }
  split; [by apply retrieve_absent|]. split.
  - rewrite list_keys_elem, Hgone. by intros [? ?].
  - split.
    + intros Hne. unfold delete_key.
      destruct (memory !! k); [by rewrite lookup_delete_ne|done].
    + intros Hk. unfold delete_key. by rewrite Hk.
Qed.

(** [store] is an upsert that forgets the previous entry: storing
    twice under a key leaves the bank the second store alone would leave
    (value, timestamp and TTL are all replaced), and the keys listed after
    a store are the key stored and those listed before. *)
Theorem store_replaces_entry (n1 n2 : Z) (k k' : string) (v1 v2 : PyVal)
    (ttl1 ttl2 : option Z) (memory : gmap string MemoryEntry) :
  store n2 k v2 ttl2 (store n1 k v1 ttl1 memory) = store n2 k v2 ttl2 memory
  /\ (k' ∈ list_keys (store n1 k v1 ttl1 memory) <-> k' = k \/ k' ∈ list_keys memory).
Proof.
  split.
  - unfold store. apply insert_insert_eq.
  - rewrite !list_keys_elem. unfold store.
    destruct (decide (k' = k)) as [->|Hne].
    + rewrite lookup_insert_eq. split; [by left | by eexists].
    + rewrite lookup_insert_ne by done. split; [by right | by intros [?|?]].
Qed.

End MemoryBankComposition.

(** ** Session Store: the other operations *)

Section SessionStoreComposition.
Import MemoryService SessionSpec Scenarios.

(** X6.  [create_session] is idempotent and never overwrites: on a session
    that exists it changes nothing (the conversation and both timestamps
    stay), so creating twice is creating once; and it touches no other
    session. *)
Theorem create_session_idempotent (t1 t2 t3 t4 sid other : string)
    (sessions : gmap string (gmap string PyVal)) :
  create_session t3 t4 sid (create_session t1 t2 sid sessions)
  = create_session t1 t2 sid sessions
  /\ (is_Some (sessions !! sid) -> create_session t1 t2 sid sessions = sessions)
  /\ (other <> sid -> create_session t1 t2 sid sessions !! other = sessions !! other).
Proof.
  split; [|split].
  - unfold create_session at 1.
    destruct (create_session t1 t2 sid sessions !! sid) eqn:H; [done|].
    unfold create_session in H. destruct (sessions !! sid) eqn:Hs.
    + congruence.
    + by rewrite lookup_insert_eq in H.
  - intros [sess Hs]. unfold create_session. by rewrite Hs.
  - intros Hne. unfold create_session.
    destruct (sessions !! sid); [done|]. by rewrite lookup_insert_ne.
Qed.

Lemma add_messages_present (sid : string) (msgs : list ConversationMessage) :
  forall (sessions : gmap string (gmap string PyVal)) (sess : gmap string PyVal)
         (conv : list PyVal),
    sessions !! sid = Some sess -> sess !! "conversation" = Some (PList conv) ->
    add_messages sid msgs sessions
    = ok (<[sid := <["conversation" := PList (conv ++ map message_to_dict msgs)]> sess]>
            sessions).
Proof.
  induction msgs as [|m msgs IH]; intros sessions sess conv Hs Hc.
  - simpl. rewrite app_nil_r. f_equal.
    rewrite (insert_id sess) by done. by rewrite insert_id.
  - cbn [add_messages].
    rewrite (add_message_present sid m sessions sess conv Hs Hc).
    unfold ok in *. cbv iota beta.
    rewrite (IH _ (<["conversation" := PList (conv ++ [message_to_dict m])]> sess)
               (conv ++ [message_to_dict m])%list);
      [|apply lookup_insert_eq..].
    rewrite !insert_insert_eq. by rewrite <- app_assoc.
Qed.

(** X7.  Messages come back in the order they were added: after
    [create_session] on a new id and one [add_message] per message,
    [get_conversation] is the list of their dicts, in order, each once. *)
Theorem conversation_round_trip (t1 t2 sid : string)
    (msgs : list ConversationMessage) (sessions : gmap string (gmap string PyVal)) :
  sessions !! sid = None ->
  exists sessions' : gmap string (gmap string PyVal),
    add_messages sid msgs (create_session t1 t2 sid sessions) = ok sessions'
    /\ get_conversation sid sessions' = PList (map message_to_dict msgs).
Proof.
  intros Hnew. eexists. split.
  - apply (add_messages_present sid msgs _ (session_init t1 t2) []).
    + by apply create_session_fresh.
    + reflexivity.
  - unfold get_conversation, get_session. rewrite lookup_insert_eq.
    destruct (decide _) as [Hempty|_].
    + apply (f_equal (fun m => m !! "conversation")) in Hempty.
      by rewrite lookup_insert_eq, lookup_empty in Hempty.
    + by rewrite lookup_insert_eq.
Qed.

Lemma conversation_round_trip_witness :
  exists sessions' : gmap string (gmap string PyVal),
    add_messages "s1" [Samples.hello; Samples.hello]
                 (create_session "t1" "t2" "s1" ∅) = ok sessions'
    /\ get_conversation "s1" sessions'
       = PList [message_to_dict Samples.hello; message_to_dict Samples.hello].
Proof.
  exact (conversation_round_trip "t1" "t2" "s1" [Samples.hello; Samples.hello] ∅
           eq_refl).
Defined.

(** X8.  [update_session] on an existing session is a shallow merge: every
    field of the patch replaces or adds that field, every other field is
    kept, and [last_activity] ends as the time of the call even when the
    patch sets it; on an unknown id it does nothing. *)
Theorem update_session_merges (now sid : string) (data : gmap string PyVal)
    (sessions : gmap string (gmap string PyVal)) :
  (forall sess : gmap string PyVal,
      sessions !! sid = Some sess ->
      exists sess' : gmap string PyVal,
        update_session now sid data sessions !! sid = Some sess'
        /\ sess' !! "last_activity" = Some (PStr now)
        /\ (forall field : string,
              field <> "last_activity" ->
              sess' !! field
              = match data !! field with
                | Some v => Some v
                | None => sess !! field
                end))
  /\ (sessions !! sid = None -> update_session now sid data sessions = sessions).
Proof.
  split.
  - intros sess Hs. unfold update_session. rewrite Hs.
    eexists. split; [apply lookup_insert_eq|].
    split; [apply lookup_insert_eq|].
    intros field Hf. rewrite lookup_insert_ne by done.
    rewrite lookup_union. destruct (data !! field), (sess !! field); done.
  - intros Hs. unfold update_session. by rewrite Hs.
Qed.

Lemma update_session_merges_witness :
  exists sess' : gmap string PyVal,
    update_session "t9" "s1" {[ "last_activity" := PStr "never"; "topic" := PStr "x" ]}
                   Samples.one_session !! "s1" = Some sess'
    /\ sess' !! "last_activity" = Some (PStr "t9")
    /\ sess' !! "topic" = Some (PStr "x")
    /\ sess' !! "conversation" = Some (PList []).
Proof.
  destruct (update_session_merges "t9" "s1"
              {[ "last_activity" := PStr "never"; "topic" := PStr "x" ]}
              Samples.one_session) as [Hpresent _].
  destruct (Hpresent _ eq_refl) as (sess' & Hs & Hl & Hf).
  exists sess'. split; [exact Hs|]. split; [exact Hl|].
  split; [exact (Hf "topic" ltac:(discriminate))
         | exact (Hf "conversation" ltac:(discriminate))].
Defined.



(** [delete_session] forgets the session and nothing else: the id
    is unknown afterwards, its conversation reads as empty, an
    [add_message] to it is dropped without recreating it, deleting again
    changes nothing, and every other session is kept. *)
Theorem delete_session_forgets (sid other : string) (msg : ConversationMessage)
    (sessions : gmap string (gmap string PyVal)) :
  get_session sid (delete_session sid sessions) = None
  /\ get_conversation sid (delete_session sid sessions) = PList []
  /\ add_message sid msg (delete_session sid sessions)
     = ok (delete_session sid sessions)
  /\ delete_session sid (delete_session sid sessions) = delete_session sid sessions
  /\ (other <> sid -> delete_session sid sessions !! other = sessions !! other).
Proof.
  assert (Hgone : delete_session sid sessions !! sid = None).
  { unfold delete_session. destruct (sessions !! sid) eqn:Hs;
      [apply lookup_delete_eq | done]. }
  split; [exact Hgone|].
  split; [unfold get_conversation, get_session; by rewrite Hgone|].
  split; [by apply add_message_missing|]. split.
  - unfold delete_session at 1. by rewrite Hgone.
  - intros Hne. unfold delete_session.
    destruct (sessions !! sid); [by rewrite lookup_delete_ne | done].
Qed.

End SessionStoreComposition.

(** ** Context compactor *)

Section CompactorProperties.
Import MemoryService.

Context {A : Type}.

Lemma compact_conversation_positive (messages : list A) (max_messages : Z) :
  (0 < max_messages)%Z ->
  compact_conversation messages max_messages
  = drop (length messages - Z.to_nat max_messages) messages.
Proof.
  intros Hpos. unfold compact_conversation, slice_from_minus.
  destruct (Z.leb_spec (Z.of_nat (length messages)) max_messages) as [Hle|Hgt].
  - replace (length messages - Z.to_nat max_messages)%nat with 0%nat by lia.
    reflexivity.
  - destruct (Z.ltb_spec 0 max_messages); [done|lia].
Qed.

(** X10.  With a positive bound, [compact_conversation] returns the most
    recent messages: a suffix of the input, in the same order, of length
    the smaller of the bound and the number of messages. *)
Theorem compact_conversation_keeps_latest (messages : list A) (max_messages : Z) :
  (0 < max_messages)%Z ->
  compact_conversation messages max_messages
  = drop (length messages - Z.to_nat max_messages) messages
  /\ length (compact_conversation messages max_messages)
     = Nat.min (length messages) (Z.to_nat max_messages)
  /\ exists older : list A,
       messages = (older ++ compact_conversation messages max_messages)%list.
Proof.
  intros Hpos.
  pose proof (compact_conversation_positive messages max_messages Hpos) as Heq.
  split; [exact Heq|]. rewrite Heq. split.
  - rewrite length_drop. lia.
  - exists (take (length messages - Z.to_nat max_messages) messages).
    by rewrite take_drop.
Qed.

(** X11.  A bound of zero does not empty the conversation: the slice
    [messages[-0:]] is the whole list, so every message is kept; and a
    negative bound [-n] drops the first [n] messages instead of keeping the
    last ones. *)
Theorem compact_conversation_nonpositive_bound (messages : list A) (max_messages : Z) :
  (max_messages <= 0)%Z ->
  compact_conversation messages max_messages
  = drop (Z.to_nat (- max_messages)) messages
  /\ (max_messages = 0%Z -> compact_conversation messages max_messages = messages).
Proof.
  intros Hle.
  assert (Heq : compact_conversation messages max_messages
                = drop (Z.to_nat (- max_messages)) messages).
  { unfold compact_conversation, slice_from_minus.
    destruct (Z.leb_spec (Z.of_nat (length messages)) max_messages) as [Hlen|Hlen].
    - assert (length messages = 0%nat) as Hnil by lia.
      destruct messages; [by rewrite drop_nil | discriminate].
    - destruct (Z.ltb_spec 0 max_messages); [lia|done]. }
  split; [exact Heq|]. intros ->. by rewrite Heq.
Qed.

(** For a bound that is not negative, compacting is idempotent:
    compacting what was already compacted changes nothing. *)
Theorem compact_conversation_idempotent (messages : list A) (max_messages : Z) :
  (0 <= max_messages)%Z ->
  compact_conversation (compact_conversation messages max_messages) max_messages
  = compact_conversation messages max_messages.
Proof.
  intros Hnn. destruct (Z.eq_dec max_messages 0%Z) as [->|Hnz].
  - assert (Hall : forall l : list A, compact_conversation l 0 = l).
    { intros l. unfold compact_conversation, slice_from_minus.
      by destruct (Z.of_nat (length l) <=? 0)%Z. }
    by rewrite !Hall.
  - assert (Hlen : length (compact_conversation messages max_messages)
                   = Nat.min (length messages) (Z.to_nat max_messages)).
    { rewrite compact_conversation_positive by lia. rewrite length_drop. lia. }
    unfold compact_conversation at 1.
    destruct (Z.leb_spec
                (Z.of_nat (length (compact_conversation messages max_messages)))
                max_messages); [done|lia].
Qed.

End CompactorProperties.

Section CompactorExamples.
Import MemoryService.

Lemma compact_conversation_keeps_latest_witness :
  compact_conversation [1; 2; 3; 4; 5]%nat 2 = drop (5 - Z.to_nat 2) [1; 2; 3; 4; 5]%nat
  /\ length (compact_conversation [1; 2; 3; 4; 5]%nat 2) = Nat.min 5 (Z.to_nat 2)
  /\ exists older : list nat,
       [1; 2; 3; 4; 5]%nat
       = (older ++ compact_conversation [1; 2; 3; 4; 5]%nat 2)%list.
Proof. apply (compact_conversation_keeps_latest [1; 2; 3; 4; 5]%nat 2). lia. Defined.

Lemma compact_conversation_nonpositive_bound_witness :
  compact_conversation [1; 2; 3]%nat (-1) = drop (Z.to_nat (- -1)) [1; 2; 3]%nat
  /\ ((-1)%Z = 0%Z -> compact_conversation [1; 2; 3]%nat (-1) = [1; 2; 3]%nat).
Proof. apply (compact_conversation_nonpositive_bound [1; 2; 3]%nat (-1)). lia. Defined.

Lemma compact_conversation_idempotent_witness :
  compact_conversation (compact_conversation [1; 2; 3]%nat 2) 2
  = compact_conversation [1; 2; 3]%nat 2.
Proof. apply (compact_conversation_idempotent [1; 2; 3]%nat 2). lia. Defined.

(** Zero keeps everything; minus one drops the oldest message. *)
Example compact_conversation_zero_and_negative :
  compact_conversation [1; 2; 3]%nat 0 = [1; 2; 3]%nat
  /\ compact_conversation [1; 2; 3]%nat (-1) = [2; 3]%nat
  /\ compact_conversation [1; 2; 3]%nat 2 = [2; 3]%nat.
Proof. repeat split. Qed.

End CompactorExamples.

Section SummarizeMessagesProperties.
Import MemoryService.

(** X12.  [summarize_messages] reads the last five messages only: whatever
    precedes five or more messages leaves the summary unchanged; and with
    no message at all the summary is the text [(no messages)]. *)
Theorem summarize_messages_reads_last_five (older recent : list (gmap string string)) :
  (5 <= length recent)%nat ->
  summarize_messages (older ++ recent) = summarize_messages recent
  /\ summarize_messages [] = "(no messages)".
Proof.
  intros Hlen. split; [|reflexivity].
  assert (Hslice : slice_from_minus (older ++ recent) 5 = slice_from_minus recent 5).
  { unfold slice_from_minus. simpl. rewrite drop_app, length_app.
    rewrite (drop_ge older) by lia. simpl. f_equal. lia. }
  unfold summarize_messages. rewrite Hslice.
  destruct recent as [|r recent]; [simpl in Hlen; lia|].
  by destruct older.
Qed.

Lemma summarize_messages_reads_last_five_witness :
  summarize_messages ([ {[ "role" := "user"; "content" := "zero" ]} ]
                        ++ replicate 5 {[ "role" := "user"; "content" := "hi" ]})
  = summarize_messages (replicate 5 {[ "role" := "user"; "content" := "hi" ]})
  /\ summarize_messages [] = "(no messages)".
Proof.
  apply (summarize_messages_reads_last_five
           [ {[ "role" := "user"; "content" := "zero" ]} ]
           (replicate 5 {[ "role" := "user"; "content" := "hi" ]})).
  simpl. lia.
Defined.

(** A long content is cut to its first hundred characters and three dots;
    a missing role reads [unknown]. *)
Example summary_line_truncates :
  String.length
    (summary_line {[ "content" := str_join "" (replicate 150 "x") ]})
  = (String.length "unknown: " + 103)%nat.
Proof. reflexivity. Qed.

End SummarizeMessagesProperties.

(** ** Metrics Aggregator: the counters *)

Section MetricsCounters.
Import LoggerConfig Scenarios.

Lemma record_actions_counts (statuses : list string) :
  forall m : Metrics,
    let m' := metrics_calls (map ActionExecuted statuses) m in
    total_actions_executed m'
    = (total_actions_executed m + Z.of_nat (length statuses))%Z
    /\ success_count m'
       = (success_count m
          + Z.of_nat (length (List.filter (fun s => String.eqb s "success") statuses)))%Z
    /\ error_count m'
       = (error_count m
          + Z.of_nat (length (List.filter (fun s => String.eqb s "failed") statuses)))%Z
    /\ pending_approval_count m'
       = (pending_approval_count m
          + Z.of_nat (length (List.filter (fun s => String.eqb s "pending_approval")
                                          statuses)))%Z
    /\ total_emails_processed m' = total_emails_processed m
    /\ total_summaries_generated m' = total_summaries_generated m
    /\ avg_response_time_ms m' = avg_response_time_ms m.
Proof.
  induction statuses as [|st statuses IH]; intros m.
  - simpl. repeat split; lia.
  - cbn zeta. cbn [map metrics_calls fold_left metrics_call].
    specialize (IH (record_action_executed st m)). cbn zeta in IH.
    unfold metrics_calls in IH.
    destruct IH as (H1 & H2 & H3 & H4 & H5 & H6 & H7).
    rewrite H1, H2, H3, H4, H5, H6, H7. clear.
    cbn [List.filter record_action_executed total_actions_executed success_count
         error_count pending_approval_count total_emails_processed
         total_summaries_generated avg_response_time_ms length].
    destruct (String.eqb_spec st "success") as [->|Hs].
    { simpl. repeat split; lia. }
    destruct (String.eqb_spec st "failed") as [->|Hf].
    { simpl. repeat split; lia. }
    destruct (String.eqb_spec st "pending_approval") as [->|Hp];
      simpl; repeat split; lia.
Qed.

(** X13.  After any run of [record_action_executed] calls,
    [total_actions_executed] has grown by the number of calls, and
    [success_count], [error_count] and [pending_approval_count] by the
    number of calls with status [success], [failed] and [pending_approval]
    respectively; a call with any other status counts in the total only,
    and the email counter, the summary counter and the running average are
    untouched. *)
Theorem record_action_executed_counts (statuses : list string) (m : Metrics) :
  total_actions_executed (metrics_calls (map ActionExecuted statuses) m)
  = (total_actions_executed m + Z.of_nat (length statuses))%Z
  /\ success_count (metrics_calls (map ActionExecuted statuses) m)
     = (success_count m
        + Z.of_nat (length (List.filter (fun s => String.eqb s "success") statuses)))%Z
  /\ error_count (metrics_calls (map ActionExecuted statuses) m)
     = (error_count m
        + Z.of_nat (length (List.filter (fun s => String.eqb s "failed") statuses)))%Z
  /\ pending_approval_count (metrics_calls (map ActionExecuted statuses) m)
     = (pending_approval_count m
        + Z.of_nat (length (List.filter (fun s => String.eqb s "pending_approval")
                                        statuses)))%Z
  /\ total_emails_processed (metrics_calls (map ActionExecuted statuses) m)
     = total_emails_processed m
  /\ total_summaries_generated (metrics_calls (map ActionExecuted statuses) m)
     = total_summaries_generated m
  /\ avg_response_time_ms (metrics_calls (map ActionExecuted statuses) m)
     = avg_response_time_ms m.
Proof. exact (record_actions_counts statuses m). Qed.

(** Three successes and one failure, recorded from the initial state. *)
Example three_successes_one_failure :
  let m := metrics_calls (map ActionExecuted ["success"; "failed"; "success"; "success"])
                         metrics_init in
  total_actions_executed m = 4%Z /\ success_count m = 3%Z /\ error_count m = 1%Z
  /\ pending_approval_count m = 0%Z.
Proof. repeat split. Qed.

Lemma metrics_call_consistent (m : Metrics) (c : MetricsCall) :
  counters_consistent m -> counters_consistent (metrics_call m c).
Proof.
  unfold counters_consistent. intros (H1 & H2 & H3 & H4 & H5 & H6).
  destruct c as [| |status|t|]; simpl.
  - repeat split; lia.
  - repeat split; lia.
  - destruct (String.eqb status "success");
      [|destruct (String.eqb status "failed");
        [|destruct (String.eqb status "pending_approval")]];
      repeat split; lia.
  - unfold record_response_time.
    destruct (float_div_int _ _); simpl; repeat split; lia.
  - repeat split; lia.
Qed.

(** X14.  In every state the collector can reach from its initial state,
    by any calls in any order ([reset] and a failing
    [record_response_time] included), no counter is negative and the three
    status counters together never exceed [total_actions_executed]. *)
Theorem counters_stay_consistent (calls : list MetricsCall) :
  counters_consistent (metrics_calls calls metrics_init).
Proof.
  assert (Hgen : forall m, counters_consistent m ->
                           counters_consistent (metrics_calls calls m)).
  { induction calls as [|c calls IH]; intros m Hm; [exact Hm|].
    apply IH. by apply metrics_call_consistent. }
  apply Hgen. unfold counters_consistent. simpl. repeat split; lia.
Qed.

Lemma metrics_call_monotone (m : Metrics) (c : MetricsCall) :
  c <> Reset ->
  (total_emails_processed m <= total_emails_processed (metrics_call m c))%Z
  /\ (total_summaries_generated m <= total_summaries_generated (metrics_call m c))%Z
  /\ (total_actions_executed m <= total_actions_executed (metrics_call m c))%Z
  /\ (success_count m <= success_count (metrics_call m c))%Z
  /\ (error_count m <= error_count (metrics_call m c))%Z
  /\ (pending_approval_count m <= pending_approval_count (metrics_call m c))%Z.
Proof.
  intros Hc. destruct c as [| |status|t|]; simpl.
  - repeat split; lia.
  - repeat split; lia.
  - destruct (String.eqb status "success");
      [|destruct (String.eqb status "failed");
        [|destruct (String.eqb status "pending_approval")]];
      repeat split; lia.
  - unfold record_response_time.
    destruct (float_div_int _ _); simpl; repeat split; lia.
  - done.
Qed.

(** X15.  Apart from [reset], no call ever lowers a counter: over any run
    of calls without a [reset], each of the six counters ends at least as
    high as it started. *)
Theorem counters_never_decrease (calls : list MetricsCall) (m : Metrics) :
  Forall (fun c => c <> Reset) calls ->
  (total_emails_processed m <= total_emails_processed (metrics_calls calls m))%Z
  /\ (total_summaries_generated m
      <= total_summaries_generated (metrics_calls calls m))%Z
  /\ (total_actions_executed m <= total_actions_executed (metrics_calls calls m))%Z
  /\ (success_count m <= success_count (metrics_calls calls m))%Z
  /\ (error_count m <= error_count (metrics_calls calls m))%Z
  /\ (pending_approval_count m <= pending_approval_count (metrics_calls calls m))%Z.
Proof.
  intros Hcalls. revert m.
  induction Hcalls as [|c calls Hc _ IH]; intros m.
  - simpl. repeat split; lia.
  - cbn [metrics_calls fold_left].
    destruct (metrics_call_monotone m c Hc) as (A1 & A2 & A3 & A4 & A5 & A6).
    destruct (IH (metrics_call m c)) as (B1 & B2 & B3 & B4 & B5 & B6).
    unfold metrics_calls in *. repeat split; lia.
Qed.

Lemma counters_never_decrease_witness :
  (total_actions_executed metrics_init
   <= total_actions_executed
        (metrics_calls [EmailProcessed; ActionExecuted "success"; ResponseTime 5%float]
                       metrics_init))%Z.
Proof.
  destruct (counters_never_decrease
              [EmailProcessed; ActionExecuted "success"; ResponseTime 5%float]
              metrics_init) as (_ & _ & H & _).
  - repeat constructor; discriminate.
  - exact H.
Defined.

End MetricsCounters.

(** ** Request Tracer *)

Section TracerProperties.
Import LoggerConfig Scenarios.

Variable json_dumps : PyVal -> Exc string.

Lemma add_span_present (now id name : string) (data : PyVal) (text : string)
    (traces : gmap string (list string)) (spans : list string) :
  traces !! id = Some spans -> json_dumps data = inr text ->
  add_span json_dumps now id name data traces
  = (ok tt, <[id := (spans ++ [span_entry name text])%list]> traces).
Proof.
  intros Hid Hdump. unfold add_span. rewrite Hid, Hdump. simpl. by rewrite Hid.
Qed.

Lemma add_spans_present (now id : string) (render : PyVal -> string)
    (spans : list (string * PyVal)) :
  Forall (fun sp => json_dumps sp.2 = inr (render sp.2)) spans ->
  forall (traces : gmap string (list string)) (entries : list string),
    traces !! id = Some entries ->
    add_spans json_dumps now id spans traces
    = (ok tt,
       <[id := (entries ++ map (fun sp => span_entry sp.1 (render sp.2)) spans)%list]>
         traces).
Proof.
  induction 1 as [|[name data] spans Hsp _ IH]; intros traces entries Hid.
  - simpl. rewrite app_nil_r. by rewrite insert_id.
  - cbn [add_spans]. simpl in Hsp.
    rewrite (add_span_present now id name data _ traces entries Hid Hsp).
    unfold ok. rewrite (IH _ (entries ++ [span_entry name (render data)])%list)
      by apply lookup_insert_eq.
    rewrite insert_insert_eq. simpl. by rewrite <- app_assoc.
Qed.

(** X16.  A trace that is started, given spans whose data all serialise,
    and ended, comes back from [end_trace] as the start marker, one entry
    per span in the order added, and the end marker: spans + 2 entries,
    whatever the trace held before the start. *)
Theorem trace_round_trip (t_start t_span t_end id : string)
    (render : PyVal -> string) (spans : list (string * PyVal))
    (traces : gmap string (list string)) :
  Forall (fun sp => json_dumps sp.2 = inr (render sp.2)) spans ->
  exists traces' : gmap string (list string),
    add_spans json_dumps t_span id spans (start_trace t_start id traces)
    = (ok tt, traces')
    /\ (end_trace t_end id traces').1
       = (("[START] " ++ t_start)%string)
           :: (map (fun sp => span_entry sp.1 (render sp.2)) spans
               ++ [("[END] " ++ t_end)%string])%list
    /\ length (end_trace t_end id traces').1 = (length spans + 2)%nat.
Proof.
  intros Hok. eexists. split.
  - apply (add_spans_present t_span id render spans Hok _ [("[START] " ++ t_start)%string]).
    unfold start_trace. apply lookup_insert_eq.
  - unfold end_trace. rewrite lookup_insert_eq. simpl. split; [done|].
    rewrite length_app, length_map. simpl. lia.
Qed.

(** X17.  [add_span] on a trace that was never started starts it first:
    when the data serialise, the trace holds the start marker and the
    span; when [json.dumps] raises, the exception comes out and the trace
    has nevertheless been created, holding the start marker alone. *)
Theorem add_span_starts_missing_trace (now id name : string) (data : PyVal)
    (traces : gmap string (list string)) :
  traces !! id = None ->
  (forall text : string,
      json_dumps data = inr text ->
      add_span json_dumps now id name data traces
      = (ok tt, <[id := [("[START] " ++ now)%string; span_entry name text]]> traces))
  /\ (forall e : PyExn,
        json_dumps data = inl e ->
        add_span json_dumps now id name data traces
        = (inl e, <[id := [("[START] " ++ now)%string]]> traces)).
Proof.
  intros Hid. split.
  - intros text Hdump. unfold add_span, start_trace. rewrite Hid, Hdump.
    rewrite lookup_insert_eq. simpl. by rewrite insert_insert_eq.
  - intros e Hdump. unfold add_span, start_trace. by rewrite Hid, Hdump.
Qed.

End TracerProperties.

Section TracerLifetime.
Import LoggerConfig Scenarios.

(** X18.  Ending a trace does not close it: the list [end_trace] returns
    is what [get_trace] returns afterwards, and a second [end_trace]
    appends a second end marker.  Ending a trace that was never started
    returns the empty list and creates nothing. *)
Theorem end_trace_keeps_trace (t1 t2 id : string) (traces : gmap string (list string)) :
  (forall spans : list string,
      traces !! id = Some spans ->
      (end_trace t1 id traces).1 = (spans ++ [("[END] " ++ t1)%string])%list
      /\ get_trace id (end_trace t1 id traces).2 = (end_trace t1 id traces).1
      /\ (end_trace t2 id (end_trace t1 id traces).2).1
         = (spans ++ [("[END] " ++ t1)%string; ("[END] " ++ t2)%string])%list)
  /\ (traces !! id = None ->
      end_trace t1 id traces = ([], traces) /\ get_trace id traces = []).
Proof.
  split.
  - intros spans Hid. unfold end_trace at 1 2 3 5. rewrite Hid. simpl.
    split; [done|]. split.
    + unfold get_trace. by rewrite lookup_insert_eq.
    + unfold end_trace. rewrite lookup_insert_eq. simpl. by rewrite <- app_assoc.
  - intros Hid. unfold end_trace, get_trace. by rewrite Hid.
Qed.

Lemma end_trace_keeps_trace_witness :
  (end_trace "t1" "r" (start_trace "t0" "r" ∅)).1 = ["[START] t0"; "[END] t1"]
  /\ (end_trace "t2" "r" (end_trace "t1" "r" (start_trace "t0" "r" ∅)).2).1
     = ["[START] t0"; "[END] t1"; "[END] t2"].
Proof.
  destruct (end_trace_keeps_trace "t1" "t2" "r" (start_trace "t0" "r" ∅))
    as [Hpresent _].
  destruct (Hpresent ["[START] t0"] eq_refl) as (H1 & _ & H2).
  split; [exact H1 | exact H2].
Defined.

(** X19.  Traces do not interfere: starting a trace, adding a span to it
    (whether or not the data serialise) or ending it leaves what
    [get_trace] returns for every other id unchanged; restarting a trace
    discards its earlier spans. *)
Theorem traces_are_isolated (json_dumps : PyVal -> Exc string)
    (now id other name : string) (data : PyVal)
    (traces : gmap string (list string)) :
  other <> id ->
  get_trace other (start_trace now id traces) = get_trace other traces
  /\ get_trace other (add_span json_dumps now id name data traces).2
     = get_trace other traces
  /\ get_trace other (end_trace now id traces).2 = get_trace other traces
  /\ get_trace id (start_trace now id traces) = [("[START] " ++ now)%string].
Proof.
  intros Hne. unfold get_trace. split; [|split; [|split]].
  - unfold start_trace. by rewrite lookup_insert_ne.
  - unfold add_span, start_trace.
    destruct (traces !! id), (json_dumps data); simpl;
      rewrite ?lookup_insert_ne by done; done.
  - unfold end_trace. destruct (traces !! id); simpl;
      rewrite ?lookup_insert_ne by done; done.
  - unfold start_trace. by rewrite lookup_insert_eq.
Qed.

Lemma traces_are_isolated_witness :
  get_trace "b" (add_span (fun _ => ok "{}") "t1" "a" "fetch" (PDict [])
                          (start_trace "t0" "b" ∅)).2
  = get_trace "b" (start_trace "t0" "b" ∅).
Proof.
  destruct (traces_are_isolated (fun _ => ok "{}") "t1" "a" "b" "fetch" (PDict [])
              (start_trace "t0" "b" ∅)) as (_ & H & _).
  - discriminate.
  - exact H.
Defined.

Lemma trace_round_trip_witness :
  exists traces' : gmap string (list string),
    add_spans (fun _ => ok "{}") "t1" "t1" [("a", PDict []); ("b", PDict [])]
              (start_trace "t0" "t1" ∅) = (ok tt, traces')
    /\ (end_trace "t2" "t1" traces').1
       = ["[START] t0"; "[a] {}"; "[b] {}"; "[END] t2"].
Proof.
  destruct (trace_round_trip (fun _ => ok "{}") "t0" "t1" "t2" "t1" (fun _ => "{}")
              [("a", PDict []); ("b", PDict [])] ∅) as (traces' & Hrun & Hend & _).
  - repeat constructor.
  - exists traces'. split; [exact Hrun | exact Hend].
Defined.

Lemma add_span_starts_missing_trace_witness :
  add_span (fun _ => raise TypeError "Object of type set is not JSON serializable")
           "t0" "r" "a" PNone ∅
  = (inl {| exn_class := TypeError;
            exn_text := "Object of type set is not JSON serializable" |},
     {[ "r" := ["[START] t0"] ]}).
Proof.
  destruct (add_span_starts_missing_trace
              (fun _ => raise TypeError "Object of type set is not JSON serializable")
              "t0" "r" "a" PNone ∅ (lookup_empty "r")) as [_ Hraise].
  exact (Hraise _ eq_refl).
Defined.

End TracerLifetime.

(** ** Evaluators *)

Section ActionEvaluatorProperties.
Import AgentEvaluator Scenarios.

(** The generator sum counts the items that pass the test. *)
Lemma count_if_from {A : Type} (p : A -> bool) (l : list A) (acc : Z) :
  fold_left (fun acc x => if p x then (acc + 1)%Z else acc) l acc
  = (acc + Z.of_nat (length (List.filter p l)))%Z.
Proof.
  revert acc. induction l as [|x l IH]; intros acc; simpl; [lia|].
  rewrite IH. destruct (p x); simpl; lia.
Qed.

Lemma count_if_filter {A : Type} (p : A -> bool) (l : list A) :
  count_if p l = Z.of_nat (length (List.filter p l)).
Proof. unfold count_if. rewrite count_if_from. lia. Qed.

Lemma flag_cases (r : ActionRecord) :
  (is_approved r = true /\ is_rejected r = false /\ is_undecided r = false
   /\ tri_state (human_approved r) = true)
  \/ (is_approved r = false /\ is_rejected r = true /\ is_undecided r = false
      /\ tri_state (human_approved r) = true)
  \/ (is_approved r = false /\ is_rejected r = false /\ is_undecided r = true
      /\ tri_state (human_approved r) = true)
  \/ (is_approved r = false /\ is_rejected r = false /\ is_undecided r = false
      /\ tri_state (human_approved r) = false).
Proof.
  unfold is_approved, is_rejected, is_undecided.
  destruct (human_approved r) as [|[|]| | | | |]; simpl; tauto.
Qed.

Lemma approval_counts_bound (l : list ActionRecord) :
  (length (List.filter is_approved l) + length (List.filter is_rejected l)
   + length (List.filter is_undecided l) <= length l)%nat
  /\ ((length (List.filter is_approved l) + length (List.filter is_rejected l)
       + length (List.filter is_undecided l) = length l)%nat
      <-> Forall (fun r => tri_state (human_approved r) = true) l).
Proof.
  induction l as [|r l [IHle IHeq]].
  - split; [simpl; lia|]. split; [constructor | reflexivity].
  - cbn [List.filter]. rewrite Forall_cons, <- IHeq.
    destruct (flag_cases r)
      as [(-> & -> & -> & ->)|[(-> & -> & -> & ->)|[(-> & -> & -> & ->)
                                                   |(-> & -> & -> & ->)]]];
      cbn [length]; (split; [lia|]); split;
      try (intros ?; split; [reflexivity | lia]);
      try (intros [_ ?]; lia);
      try (intros [? _]; discriminate);
      try (intros ?; lia).
Qed.

Lemma status_counts_bound (l : list ActionRecord) :
  (length (List.filter (has_status "success") l)
   + length (List.filter (has_status "pending_approval") l)
   + length (List.filter (has_status "failed") l) <= length l)%nat
  /\ (Forall (fun r => known_status (rec_status r) = true) l ->
      (length (List.filter (has_status "success") l)
       + length (List.filter (has_status "pending_approval") l)
       + length (List.filter (has_status "failed") l) = length l)%nat).
Proof.
  induction l as [|r l [IHle IHeq]]; [split; [simpl; lia | reflexivity]|].
  assert (Hcases :
    (has_status "success" r = true /\ has_status "pending_approval" r = false
     /\ has_status "failed" r = false)
    \/ (has_status "success" r = false /\ has_status "pending_approval" r = true
        /\ has_status "failed" r = false)
    \/ (has_status "success" r = false /\ has_status "pending_approval" r = false
        /\ has_status "failed" r = true)
    \/ (has_status "success" r = false /\ has_status "pending_approval" r = false
        /\ has_status "failed" r = false /\ known_status (rec_status r) = false)).
  { unfold has_status, known_status.
    destruct (String.eqb_spec (rec_status r) "success") as [He|?];
      [rewrite He; by left|].
    destruct (String.eqb_spec (rec_status r) "pending_approval") as [He|?];
      [rewrite He; right; by left|].
    destruct (String.eqb_spec (rec_status r) "failed") as [He|?];
      [right; right; by left|].
    right; right; right. done. }
  split.
  - simpl. destruct Hcases as [(->&->&->)|[(->&->&->)|[(->&->&->)|(->&->&->&_)]]];
      simpl; lia.
  - intros Hall. apply Forall_cons in Hall as [Hr Hl]. specialize (IHeq Hl).
    simpl. destruct Hcases as [(->&->&->)|[(->&->&->)|[(->&->&->)|(_&_&_&Hk)]]];
      simpl; try lia. congruence.
Qed.

(** X20.  In the report of [evaluate_human_approval_rate] the approved,
    rejected and pending counts are never negative and together never
    exceed the total; they add up to the total exactly when every recorded
    [human_approved] flag is [True], [False] or [None].  A flag of any
    other value is counted in none of the three. *)
Theorem approval_counts_partition (action_results : list ActionRecord) :
  exists a r p : Z,
    evaluate_human_approval_rate action_results
    = [("total", PInt (Z.of_nat (length action_results)));
       ("approved", PInt a); ("rejected", PInt r); ("pending", PInt p);
       ("approval_rate",
        PFloat (if (0 <? Z.of_nat (length action_results))%Z
                then (float_of_Z a / float_of_Z (Z.of_nat (length action_results)))%float
                else 0%float))]
    /\ a = Z.of_nat (length (List.filter is_approved action_results))
    /\ r = Z.of_nat (length (List.filter is_rejected action_results))
    /\ p = Z.of_nat (length (List.filter is_undecided action_results))
    /\ (0 <= a)%Z /\ (0 <= r)%Z /\ (0 <= p)%Z
    /\ (a + r + p <= Z.of_nat (length action_results))%Z
    /\ ((a + r + p = Z.of_nat (length action_results))%Z
        <-> Forall (fun x => tri_state (human_approved x) = true) action_results).
Proof.
  eexists _, _, _. split; [reflexivity|].
  rewrite !count_if_filter.
  destruct (approval_counts_bound action_results) as [Hle Heq].
  split; [reflexivity|]. split; [reflexivity|]. split; [reflexivity|].
  split; [lia|]. split; [lia|]. split; [lia|]. split; [lia|].
  rewrite <- Heq. lia.
Qed.

(** X21.  For a non-empty record, [evaluate_success_rate] reports the
    total, the numbers of results with status [success],
    [pending_approval] and [failed], and a success rate of successful over
    total; the three numbers together never exceed the total and equal it
    when every status is one of the three.  For an empty record the report
    is the two entries [success_rate = 0.0] and [total_actions = 0] and
    nothing else: it has no [successful], [pending_approval] or [failed]
    key. *)
Theorem success_report_counts (action_results : list ActionRecord) :
  (action_results <> [] ->
   evaluate_success_rate action_results
   = [("total_actions", PInt (Z.of_nat (length action_results)));
      ("successful",
       PInt (Z.of_nat (length (List.filter (has_status "success") action_results))));
      ("pending_approval",
       PInt (Z.of_nat (length (List.filter (has_status "pending_approval")
                                           action_results))));
      ("failed",
       PInt (Z.of_nat (length (List.filter (has_status "failed") action_results))));
      ("success_rate",
       PFloat (float_of_Z
                 (Z.of_nat (length (List.filter (has_status "success")
                                                action_results)))
               / float_of_Z (Z.of_nat (length action_results)))%float)]
   /\ (length (List.filter (has_status "success") action_results)
       + length (List.filter (has_status "pending_approval") action_results)
       + length (List.filter (has_status "failed") action_results)
       <= length action_results)%nat
   /\ (Forall (fun r => known_status (rec_status r) = true) action_results ->
       (length (List.filter (has_status "success") action_results)
        + length (List.filter (has_status "pending_approval") action_results)
        + length (List.filter (has_status "failed") action_results)
        = length action_results)%nat))
  /\ evaluate_success_rate []
     = [("success_rate", PFloat 0%float); ("total_actions", PInt 0)]
  /\ (forall k : string,
        k <> "success_rate" -> k <> "total_actions" ->
        assoc_get k (evaluate_success_rate []) = None)
  /\ assoc_get "successful" (evaluate_success_rate []) = None
  /\ assoc_get "pending_approval" (evaluate_success_rate []) = None
  /\ assoc_get "failed" (evaluate_success_rate []) = None.
Proof.
  split; [|split; [reflexivity|split; [|repeat split]]].
  - intros Hne. destruct action_results as [|r0 rest]; [done|].
    destruct (status_counts_bound (r0 :: rest)) as [Hle Heq].
    split; [|split; [exact Hle | exact Heq]].
    unfold evaluate_success_rate. cbv iota beta zeta.
    rewrite !count_if_filter. unfold int_div_int.
    replace (0 <? Z.of_nat (length (r0 :: rest)))%Z with true; [reflexivity|].
    symmetry. apply Z.ltb_lt. simpl length. lia.
  - intros k H1 H2. simpl.
    destruct (String.eqb_spec k "success_rate"); [done|].
    by destruct (String.eqb_spec k "total_actions").
Qed.

End ActionEvaluatorProperties.

Section ActionEvaluatorExamples.
Import AgentEvaluator Scenarios.

(** Three successes and one failure give a success rate of 0.75. *)
Lemma success_report_counts_witness :
  evaluate_success_rate
    (add_result "t" "4" "archive" "failed" PNone
       (add_result "t" "3" "archive" "success" PNone
          (add_result "t" "2" "archive" "success" PNone
             (add_result "t" "1" "archive" "success" PNone []))))
  = [("total_actions", PInt 4); ("successful", PInt 3);
     ("pending_approval", PInt 0); ("failed", PInt 1);
     ("success_rate", PFloat 0.75%float)].
Proof.
  destruct (success_report_counts
              (add_result "t" "4" "archive" "failed" PNone
                 (add_result "t" "3" "archive" "success" PNone
                    (add_result "t" "2" "archive" "success" PNone
                       (add_result "t" "1" "archive" "success" PNone [])))))
    as [Hrep _].
  destruct (Hrep ltac:(discriminate)) as [Heq _].
  rewrite Heq. reflexivity.
Defined.

(** A flag that is neither [True], [False] nor [None] (here the number 1,
    as a JSON body can carry it) is counted nowhere: one result, and
    approved, rejected and pending are all zero. *)
Lemma approval_counts_partition_witness :
  exists a r p : Z,
    evaluate_human_approval_rate (add_result "t" "1" "archive" "success" (PInt 1) [])
    = [("total", PInt 1); ("approved", PInt a); ("rejected", PInt r);
       ("pending", PInt p); ("approval_rate", PFloat 0%float)]
    /\ (a + r + p)%Z = 0%Z.
Proof.
  destruct (approval_counts_partition
              (add_result "t" "1" "archive" "success" (PInt 1) []))
    as (a & r & p & Hrep & -> & -> & -> & _).
  eexists _, _, _. split; [exact Hrep | reflexivity].
Defined.

End ActionEvaluatorExamples.

Section SummarizerEvaluatorProperties.
Import AgentEvaluator EvaluatorSpec Scenarios.

Lemma lower_ascii_idempotent (c : ascii) : lower_ascii (lower_ascii c) = lower_ascii c.
Proof.
  destruct c as [b0 b1 b2 b3 b4 b5 b6 b7].
  destruct b0, b1, b2, b3, b4, b5, b6, b7; reflexivity.
Qed.

Lemma lower_idempotent (s : string) : lower (lower s) = lower s.
Proof.
  induction s as [|c s IH]; [reflexivity|].
  simpl. by rewrite lower_ascii_idempotent, IH.
Qed.

Lemma build_truth_map_lower (gts : list GroundTruth) :
  build_truth_map (map lower_truth gts) = lower <$> build_truth_map gts.
Proof.
  induction gts as [|gt gts IH] using rev_ind.
  - unfold build_truth_map. simpl. by rewrite fmap_empty.
  - rewrite map_app. simpl map. rewrite !build_truth_map_snoc, IH.
    simpl. by rewrite fmap_insert.
Qed.

Lemma eval_step_lower (truth_map : gmap string string) (acc : Z * float)
    (p : Prediction) :
  eval_step (lower <$> truth_map) acc (lower_action p) = eval_step truth_map acc p.
Proof.
  destruct acc as [correct total_confidence]. rewrite !eval_step_eq. simpl.
  rewrite lookup_fmap. destruct (truth_map !! email_id p) as [truth|]; simpl; [|done].
  by rewrite !lower_idempotent.
Qed.

Lemma matched_count_bounds (truth_map : gmap string string) (ps : list Prediction) :
  (0 <= matched_count truth_map ps <= Z.of_nat (length ps))%Z.
Proof.
  unfold matched_count.
  pose proof (List.filter_length_le (action_matches truth_map) ps). lia.
Qed.

(** The number of correct predictions [evaluate_actions] reports is
    never negative and never more than the number of predictions, so the
    accuracy is a quotient of a count by a count at least as large. *)
Theorem correct_predictions_bounded (predictions : list Prediction)
    (ground_truth : list GroundTruth) :
  (0 <= correct_predictions (evaluate_actions predictions ground_truth)
   <= total_predictions (evaluate_actions predictions ground_truth))%Z.
Proof.
  unfold evaluate_actions. rewrite eval_loop. simpl.
  apply matched_count_bounds.
Qed.

(** X22.  The evaluation is blind to letter case: lower-casing the action
    of every prediction and of every ground-truth label changes none of
    the reported numbers. *)
Theorem evaluate_actions_ignores_case (predictions : list Prediction)
    (ground_truth : list GroundTruth) :
  evaluate_actions (map lower_action predictions) (map lower_truth ground_truth)
  = evaluate_actions predictions ground_truth.
Proof.
  unfold evaluate_actions. rewrite build_truth_map_lower, length_map.
  assert (Hloop : forall ps acc,
             fold_left (eval_step (lower <$> build_truth_map ground_truth))
                       (map lower_action ps) acc
             = fold_left (eval_step (build_truth_map ground_truth)) ps acc).
  { induction ps as [|p ps IH]; intros acc; [reflexivity|].
    simpl. by rewrite eval_step_lower, IH. }
  by rewrite Hloop.
Qed.

(** X23.  A prediction for an id that has no ground-truth label counts in
    the denominator only: recording it raises the total by one and leaves
    the number of correct predictions and the summed confidence as they
    were, so accuracy and average confidence can only be diluted. *)
Theorem unlabelled_prediction_counts_in_total_only (id summ act : string)
    (conf : float) (predictions : list Prediction) (ground_truth : list GroundTruth) :
  Forall (fun gt => gt_email_id gt <> id) ground_truth ->
  total_predictions
    (evaluate_actions (add_prediction id summ act conf predictions) ground_truth)
  = (total_predictions (evaluate_actions predictions ground_truth) + 1)%Z
  /\ correct_predictions
       (evaluate_actions (add_prediction id summ act conf predictions) ground_truth)
     = correct_predictions (evaluate_actions predictions ground_truth)
  /\ avg_confidence
       (evaluate_actions (add_prediction id summ act conf predictions) ground_truth)
     = (matched_confidence (build_truth_map ground_truth) predictions
        / float_of_Z (Z.of_nat (length predictions) + 1))%float.
Proof.
  intros Hnone.
  assert (Hlook : build_truth_map ground_truth !! id = None).
  { destruct (build_truth_map ground_truth !! id) as [t|] eqn:Hl; [|done].
    destruct (build_truth_map_lookup ground_truth id t Hl) as (gt & Hin & Hid & _).
    rewrite List.Forall_forall in Hnone. by destruct (Hnone gt Hin). }
  unfold evaluate_actions, add_prediction.
  rewrite fold_left_app, !eval_loop. cbn [fold_left].
  rewrite eval_step_eq. simpl email_id. rewrite Hlook.
  rewrite length_app. simpl.
  replace (Z.of_nat (length predictions + 1)) with (Z.of_nat (length predictions) + 1)%Z
    by lia.
  replace (0 <? Z.of_nat (length predictions) + 1)%Z with true
    by (symmetry; apply Z.ltb_lt; lia).
  done.
Qed.

(** When an id is labelled more than once the last label is the one
    that counts: a prediction is judged against the label added last for
    its id, whatever labels came before. *)
Theorem last_label_wins (p : Prediction) (act : string)
    (ground_truth : list GroundTruth) :
  correct_predictions
    (evaluate_actions [p] (add_ground_truth (email_id p) act ground_truth))
  = (if String.eqb (lower (action p)) (lower act) then 1 else 0)%Z.
Proof.
  unfold evaluate_actions, add_ground_truth.
  rewrite build_truth_map_snoc. cbn [fold_left]. rewrite eval_step_eq.
  simpl gt_email_id. simpl true_action. rewrite lookup_insert_eq.
  by destruct (String.eqb _ _).
Qed.

End SummarizerEvaluatorProperties.

Section SummarizerEvaluatorExamples.
Import AgentEvaluator EvaluatorSpec Scenarios.

Lemma unlabelled_prediction_counts_in_total_only_witness :
  total_predictions
    (evaluate_actions (add_prediction "9" "s" "reply" 1%float []) Samples.one_truth)
  = (total_predictions (evaluate_actions [] Samples.one_truth) + 1)%Z
  /\ correct_predictions
       (evaluate_actions (add_prediction "9" "s" "reply" 1%float []) Samples.one_truth)
     = correct_predictions (evaluate_actions [] Samples.one_truth).
Proof.
  destruct (unlabelled_prediction_counts_in_total_only "9" "s" "reply" 1%float []
              Samples.one_truth) as (H1 & H2 & _).
  - repeat constructor. discriminate.
  - split; [exact H1 | exact H2].
Defined.

End SummarizerEvaluatorExamples.

(** ** Agent pipeline: calls made and results produced *)

Section PipelineRuns.
Import AgentsOrchestrator PipelineSpec Scenarios.

Variable env : Collaborators.

Ltac unfold_m :=
  unfold mbind, M_bind, bind, mret, M_ret, ret, log, emit, lift, try_except,
         any_exception, utcnow; simpl.

Ltac calls_of_events :=
  unfold client_calls; simpl; rewrite ?List.filter_app; simpl;
  rewrite ?app_nil_r; try reflexivity.

(** The fetch stage makes one call on the mail client and returns the
    messages it got, or none when the call raised. *)
Lemma fetch_emails_run (max_results : Z) (w : World) :
  exists (emails : list EmailMessage) (w1 : World),
    fetch_emails env max_results w = (inr emails, w1)
    /\ client_calls w1 = (client_calls w ++ [GmailListUnread max_results])%list
    /\ emails
       = match list_unread_emails env
                 (after_log Fetcher "EmailFetcherAgent: fetching up to {} unread emails"
                            [PInt max_results] w) max_results with
         | inr raw => map email_of_dict raw
         | inl _ => []
         end.
Proof.
  unfold fetch_emails, call_list_unread_emails, after_log. unfold_m.
  destruct (list_unread_emails env _ max_results) as [e|raw]; simpl;
    eexists _, _; (split; [reflexivity|]); (split; [calls_of_events | reflexivity]).
Qed.

(** The summarize stage makes one call on the summarization client, for
    the one email it was given. *)
Lemma summarize_and_suggest_run (email : EmailMessage) (w : World) :
  exists (r : SummaryResult) (w' : World),
    summarize_and_suggest env email w = (inr r, w')
    /\ email_id r = id email
    /\ client_calls w' = (client_calls w ++ [OpenAISummarize [email]])%list.
Proof.
  unfold summarize_and_suggest, call_summarize_emails. unfold_m.
  destruct (summarize_emails env _ [email]) as [e|text]; simpl.
  { eexists _, _. split; [reflexivity|]. split; [reflexivity | calls_of_events]. }
  match goal with |- context [parse_response env text ?w0] =>
    pose proof (parse_response_world env text w0) as Hw;
    destruct (parse_response env text w0) as [[e|[[s a] c]] w1]
  end; simpl in *; subst w1; eexists _, _;
    (split; [reflexivity|]); (split; [reflexivity | calls_of_events]).
Qed.

(** The action stage makes no call, and its status is one of the three. *)
Lemma execute_action_run (s : SummaryResult) (requires_approval : bool) (w : World) :
  exists (a : ActionResult) (w' : World),
    execute_action env s requires_approval w = (inr a, w')
    /\ (ar_email_id a = email_id s
        /\ known_status (status a) = true
        /\ (requires_approval = true ->
            status a = "pending_approval" /\ action a = suggested_action s))
    /\ client_calls w' = (client_calls w ++ [])%list.
Proof.
  unfold execute_action, execute_action_body. unfold_m.
  destruct requires_approval; simpl.
  { eexists _, _. split; [reflexivity|]. split; [done | calls_of_events]. }
  destruct (py_lower (suggested_action s)) as [e|a]; simpl.
  { eexists _, _. split; [reflexivity|]. split; [done | calls_of_events]. }
  destruct (String.eqb a "archive"); [|destruct (String.eqb a "reply")]; simpl;
    eexists _, _; (split; [reflexivity|]); (split; [done | calls_of_events]).
Qed.

(** A loop collects, in order, what each run of its body returns and the
    calls each run makes. *)
Lemma for_each_run {A B : Type} (f : A -> M B) (P : A -> B -> Prop)
    (calls : A -> list Event) :
  (forall x w, exists y w',
      f x w = (inr y, w') /\ P x y
      /\ client_calls w' = (client_calls w ++ calls x)%list) ->
  forall (l : list A) (w : World),
    exists (ys : list B) (w' : World),
      for_each f l w = (inr ys, w') /\ Forall2 P l ys
      /\ client_calls w' = (client_calls w ++ concat (map calls l))%list.
Proof.
  intros Hf. induction l as [|x l IH]; intros w.
  - exists [], w. split; [reflexivity|]. split; [constructor|].
    simpl. by rewrite app_nil_r.
  - destruct (Hf x w) as (y & w1 & Hx & HP & Hc1).
    destruct (IH w1) as (ys & w2 & Hl & HPs & Hc2).
    exists (y :: ys), w2. split; [|split; [by constructor|]].
    + cbn [for_each]. rewrite (mbind_returns _ _ _ _ _ Hx).
      rewrite (mbind_returns _ _ _ _ _ Hl). reflexivity.
    + rewrite Hc2, Hc1. simpl. by rewrite <- app_assoc.
Qed.

(** One pass, with everything it returns and every call it makes. *)
Lemma process_inbox_run (max_emails : Z) (require_approval : bool) (w : World) :
  exists (emails : list EmailMessage) (w1 : World) (report : Report) (w' : World),
    fetch_emails env max_emails (entered_orchestrator w) = (inr emails, w1)
    /\ process_inbox env max_emails require_approval w = (inr report, w')
    /\ Forall2 (fun e s => email_id s = id e) emails (summaries report)
    /\ Forall2 (fun s a =>
                  ar_email_id a = email_id s
                  /\ known_status (status a) = true
                  /\ (require_approval = true ->
                      status a = "pending_approval"
                      /\ action a = suggested_action s))
               (summaries report) (actions report)
    /\ client_calls w'
       = (client_calls w ++ GmailListUnread max_emails
            :: map (fun e => OpenAISummarize [e]) emails)%list.
Proof.
  destruct (fetch_emails_run max_emails (entered_orchestrator w))
    as (emails & w1 & Hfetch & Hcalls1 & _).
  assert (Hentered : client_calls (entered_orchestrator w) = client_calls w)
    by (unfold entered_orchestrator, after_log; unfold_m; calls_of_events).
  rewrite Hentered in Hcalls1.
  exists emails, w1.
  destruct emails as [|email0 rest].
  - eexists _, _. split; [exact Hfetch|]. split.
    { unfold process_inbox.
      rewrite (mbind_returns _ _ w (entered_orchestrator w) tt) by reflexivity.
      rewrite (mbind_returns _ _ _ _ _ Hfetch). reflexivity. }
    simpl. split; [constructor|]. split; [constructor|].
    revert Hcalls1. unfold client_calls. simpl.
    rewrite !List.filter_app. simpl. intros ->. by rewrite app_nil_r.
  - destruct (for_each_run (summarize_and_suggest env)
                (fun e s => email_id s = id e)
                (fun e => [OpenAISummarize [e]])
                (summarize_and_suggest_run) (email0 :: rest) w1)
      as (ss & w2 & Hss & Hal1 & Hcalls2).
    destruct (for_each_run (fun s => execute_action env s require_approval)
                (fun s a =>
                   ar_email_id a = email_id s
                   /\ known_status (status a) = true
                   /\ (require_approval = true ->
                       status a = "pending_approval"
                       /\ action a = suggested_action s))
                (fun _ => [])
                (fun s w0 => execute_action_run s require_approval w0) ss w2)
      as (acts & w3 & Hacts & Hal2 & Hcalls3).
    eexists _, _. split; [exact Hfetch|]. split.
    { unfold process_inbox.
      rewrite (mbind_returns _ _ w (entered_orchestrator w) tt) by reflexivity.
      rewrite (mbind_returns _ _ _ _ _ Hfetch). cbv iota beta.
      rewrite (mbind_returns _ _ _ _ _ Hss).
      rewrite (mbind_returns _ _ _ _ _ Hacts). reflexivity. }
    cbn [summaries actions]. split; [exact Hal1|]. split; [exact Hal2|].
    assert (Hnil : concat (map (fun _ : SummaryResult => @nil Event) ss) = []).
    { clear. induction ss; [reflexivity | done]. }
    rewrite Hnil, app_nil_r in Hcalls3.
    assert (Hone : forall l : list EmailMessage,
               concat (map (fun e => [OpenAISummarize [e]]) l)
               = map (fun e => OpenAISummarize [e]) l).
    { induction l as [|x l IHl]; [reflexivity | simpl; by rewrite IHl]. }
    rewrite Hone in Hcalls2.
    unfold_m. unfold client_calls in *. simpl in *.
    rewrite !List.filter_app. simpl. rewrite app_nil_r.
    rewrite Hcalls3, Hcalls2, Hcalls1. by rewrite <- app_assoc.
Qed.

(** X24.  [fetch_emails] never raises and calls the mail client exactly
    once, with the bound it was given: when the call succeeds it returns
    one message per listed item, in order; when the call raises it returns
    the empty list. *)
Theorem fetch_emails_absorbs_failure (max_results : Z) (w : World) :
  exists (emails : list EmailMessage) (w1 : World),
    fetch_emails env max_results w = (inr emails, w1)
    /\ client_calls w1 = (client_calls w ++ [GmailListUnread max_results])%list
    /\ (forall raw : list (gmap string string),
          list_unread_emails env
            (after_log Fetcher "EmailFetcherAgent: fetching up to {} unread emails"
                       [PInt max_results] w) max_results = inr raw ->
          emails = map email_of_dict raw /\ length emails = length raw)
    /\ (forall e : PyExn,
          list_unread_emails env
            (after_log Fetcher "EmailFetcherAgent: fetching up to {} unread emails"
                       [PInt max_results] w) max_results = inl e ->
          emails = []).
Proof.
  destruct (fetch_emails_run max_results w) as (emails & w1 & Hrun & Hcalls & Hemails).
  exists emails, w1. split; [exact Hrun|]. split; [exact Hcalls|]. split.
  - intros raw Hraw. rewrite Hraw in Hemails. subst emails.
    split; [reflexivity | apply length_map].
  - intros e He. by rewrite He in Hemails.
Qed.

(** X25.  One pass calls the mail client once and then the summarization
    client once per fetched email, in fetch order and one email per call
    (never a batch); the action stage calls nothing, whatever
    [require_approval] is. *)
Theorem process_inbox_client_calls (max_emails : Z) (require_approval : bool)
    (w : World) :
  exists (emails : list EmailMessage) (w1 : World) (report : Report) (w' : World),
    fetch_emails env max_emails (entered_orchestrator w) = (inr emails, w1)
    /\ process_inbox env max_emails require_approval w = (inr report, w')
    /\ client_calls w'
       = (client_calls w ++ GmailListUnread max_emails
            :: map (fun e => OpenAISummarize [e]) emails)%list.
Proof.
  destruct (process_inbox_run max_emails require_approval w)
    as (emails & w1 & report & w' & Hfetch & Hrun & _ & _ & Hcalls).
  exists emails, w1, report, w'. done.
Qed.

(** X26.  Every action of a report has one of the three statuses
    [success], [failed], [pending_approval]; and when approval is required
    every status is [pending_approval] and every action field repeats the
    suggested action of the summary at the same position. *)
Theorem process_inbox_statuses (max_emails : Z) (require_approval : bool) (w : World) :
  exists (report : Report) (w' : World),
    process_inbox env max_emails require_approval w = (inr report, w')
    /\ Forall (fun a => known_status (status a) = true) (actions report)
    /\ (require_approval = true ->
        Forall (fun a => status a = "pending_approval") (actions report)
        /\ map action (actions report) = map suggested_action (summaries report)).
Proof.
  destruct (process_inbox_run max_emails require_approval w)
    as (emails & w1 & report & w' & _ & Hrun & _ & Hacts & _).
  exists report, w'. split; [exact Hrun|].
  induction Hacts as [|s a ss acts (_ & Hk & Happr) _ (IH1 & IH2)].
  - split; [constructor|]. intros _. split; [constructor | reflexivity].
  - split; [by constructor|]. intros Hra.
    destruct (Happr Hra) as [Hst Hact]. destruct (IH2 Hra) as [IHa IHb].
    split; [by constructor|]. simpl. by rewrite Hact, IHb.
Qed.

End PipelineRuns.

(** ** Agent pipeline: what the summarize stage makes of a response *)

Section SummarizeStageResponses.
Import AgentsOrchestrator PipelineSpec.

Variable env : Collaborators.

Ltac unfold_m :=
  unfold mbind, M_bind, bind, mret, M_ret, ret, log, emit, lift, try_except,
         any_exception, utcnow; simpl.

(** [float] never raises a [JSONDecodeError]. *)
Lemma py_float_not_decode_error (v : PyVal) (e : PyExn) :
  py_float env v = inl e -> is_json_decode_error e = false.
Proof.
  destruct v as [|b|z|f|s|l|d]; simpl; try (by intros [= <-]).
  - unfold float_of_int. destruct (PrimFloat.is_infinity _); [by intros [= <-]|done].
  - destruct (float_of_str env s); [done | by intros [= <-]].
Qed.

(** What the inner [try] returns for a response that parses to an
    object. *)
Lemma parse_response_object (text : string) (d : list (string * PyVal)) (w : World) :
  json_loads env text = inr (PDict d) ->
  parse_response env text w
  = (match py_float env (default (PFloat 0.5) (assoc_get "confidence" d)) with
     | inr c => inr (default (PStr text) (assoc_get "summary" d),
                     default (PStr "escalate") (assoc_get "action" d), c)
     | inl e => inl e
     end, w).
Proof.
  intros Hload. unfold parse_response. unfold_m. rewrite Hload. simpl.
  destruct (py_float env _) as [e|c] eqn:Hf; simpl; [|done].
  by rewrite (py_float_not_decode_error _ _ Hf).
Qed.

(** What the inner [try] does for a response that parses to something
    else: the missing [get] is an [AttributeError]. *)
Lemma parse_response_non_object (text : string) (v : PyVal) (w : World) :
  json_loads env text = inr v -> (forall d, v <> PDict d) ->
  parse_response env text w = (no_attribute v "get", w).
Proof.
  intros Hload Hv. unfold parse_response. unfold_m. rewrite Hload. simpl.
  destruct v; try reflexivity. by destruct (Hv l).
Qed.

(** Where a parsed action can come from. *)
Lemma parse_response_action (text : string) (w w' : World) (s a : PyVal) (c : float) :
  parse_response env text w = (inr (s, a, c), w') ->
  a = PStr "escalate"
  \/ exists d : list (string * PyVal),
       json_loads env text = inr (PDict d) /\ assoc_get "action" d = Some a.
Proof.
  destruct (json_loads env text) as [e|v] eqn:Hload.
  - unfold parse_response. unfold_m. rewrite Hload. simpl.
    destruct (is_json_decode_error e); [|done]. intros [= _ <- _ _]. by left.
  - destruct v as [| | | | | |d];
      try (rewrite (parse_response_non_object text _ w Hload) by done; done).
    rewrite (parse_response_object text d w Hload).
    destruct (py_float env _); [done|]. intros [= _ Ha _ _].
    destruct (assoc_get "action" d) as [a'|] eqn:Hact; simpl in Ha; subst a.
    + right. by exists d.
    + by left.
Qed.

Lemma summarize_and_suggest_step (email : EmailMessage) (w : World) (text : string) :
  summarize_emails env (entered_summarizer email w) [email] = inr text ->
  summarize_and_suggest env email w
  = match parse_response env text
            {| clock_reads := clock_reads w;
               events := (events w
                            ++ [Logged Summarizer INFO
                                  "SummarizerAgent: processing email {}"
                                  [PStr (id email)]])
                           ++ [OpenAISummarize [email]] |} with
    | (inr (s, a, c), w1) =>
        (inr {| email_id := id email; summary := s; suggested_action := a;
                confidence := c;
                timestamp := utcnow_isoformat env (clock_reads w1) |},
         {| clock_reads := S (clock_reads w1);
            events := events w1
                      ++ [Logged Summarizer INFO
                            "SummarizerAgent: completed for email {}, action={}"
                            [PStr (id email); a]] |})
    | (inl e, w1) =>
        (inr {| email_id := id email; summary := PStr "(summarization failed)";
                suggested_action := PStr "escalate"; confidence := 0%float;
                timestamp := utcnow_isoformat env (clock_reads w1) |},
         {| clock_reads := S (clock_reads w1);
            events := events w1
                      ++ [Logged Summarizer ERROR "SummarizerAgent error: {}"
                            [PStr (str_exn e)]] |})
    end.
Proof.
  unfold summarize_and_suggest, call_summarize_emails, entered_summarizer, after_log.
  unfold_m. intros ->. simpl.
  by destruct (parse_response env text _) as [[e|[[s a] c]] w1].
Qed.

Lemma summarize_and_suggest_raised (email : EmailMessage) (w : World) (e : PyExn) :
  summarize_emails env (entered_summarizer email w) [email] = inl e ->
  exists w' : World,
    summarize_and_suggest env email w
    = (inr {| email_id := id email; summary := PStr "(summarization failed)";
              suggested_action := PStr "escalate"; confidence := 0%float;
              timestamp := utcnow_isoformat env (clock_reads w) |}, w').
Proof.
  unfold summarize_and_suggest, call_summarize_emails, entered_summarizer, after_log.
  unfold_m. intros ->. simpl. by eexists.
Qed.

(** X27.  When the response parses to a JSON object, the result takes
    [summary], [action] and [confidence] from it, and a field the object
    lacks gets its default: the raw response text as summary, [escalate]
    as action, [0.5] as confidence. *)
Theorem summarize_and_suggest_reads_object (email : EmailMessage) (w : World)
    (text : string) (d : list (string * PyVal)) (c : float) :
  summarize_emails env (entered_summarizer email w) [email] = inr text ->
  json_loads env text = inr (PDict d) ->
  py_float env (default (PFloat 0.5) (assoc_get "confidence" d)) = inr c ->
  exists (r : SummaryResult) (w' : World),
    summarize_and_suggest env email w = (inr r, w')
    /\ email_id r = id email
    /\ summary r = default (PStr text) (assoc_get "summary" d)
    /\ suggested_action r = default (PStr "escalate") (assoc_get "action" d)
    /\ confidence r = c.
Proof.
  intros Hcall Hload Hconf.
  rewrite (summarize_and_suggest_step email w text Hcall).
  rewrite (parse_response_object text d _ Hload), Hconf.
  eexists _, _. repeat split; reflexivity.
Qed.

(** X28.  A response that parses, but not to an object, or whose
    [confidence] cannot be converted to a float, is not given the
    half-confidence fallback: the error is taken by the outer handler and
    the result is the failure summary, [escalate], confidence [0.0], even
    when the object named another action. *)
Theorem summarize_and_suggest_bad_shape (email : EmailMessage) (w : World)
    (text : string) (v : PyVal) :
  summarize_emails env (entered_summarizer email w) [email] = inr text ->
  json_loads env text = inr v ->
  ((forall d, v <> PDict d)
   \/ exists d e, v = PDict d
                  /\ py_float env (default (PFloat 0.5) (assoc_get "confidence" d))
                     = inl e) ->
  exists (r : SummaryResult) (w' : World),
    summarize_and_suggest env email w = (inr r, w')
    /\ summary r = PStr "(summarization failed)"
    /\ suggested_action r = PStr "escalate"
    /\ confidence r = 0%float.
Proof.
  intros Hcall Hload Hshape.
  rewrite (summarize_and_suggest_step email w text Hcall).
  destruct Hshape as [Hv|(d & e & -> & Hconf)].
  - rewrite (parse_response_non_object text v _ Hload Hv).
    eexists _, _. repeat split; reflexivity.
  - rewrite (parse_response_object text d _ Hload), Hconf.
    eexists _, _. repeat split; reflexivity.
Qed.

(** X29.  The stage never invents an action: a suggested action other
    than [escalate] can only be the [action] field of a JSON object the
    collaborator's response parsed to. *)
Theorem suggested_action_comes_from_response (email : EmailMessage) (w w' : World)
    (r : SummaryResult) :
  summarize_and_suggest env email w = (inr r, w') ->
  suggested_action r <> PStr "escalate" ->
  exists (text : string) (d : list (string * PyVal)),
    summarize_emails env (entered_summarizer email w) [email] = inr text
    /\ json_loads env text = inr (PDict d)
    /\ assoc_get "action" d = Some (suggested_action r).
Proof.
  intros Hrun Hne.
  destruct (summarize_emails env (entered_summarizer email w) [email])
    as [e|text] eqn:Hcall.
  - destruct (summarize_and_suggest_raised email w e Hcall) as (w0 & Hr).
    rewrite Hr in Hrun. injection Hrun as <- _. by destruct Hne.
  - rewrite (summarize_and_suggest_step email w text Hcall) in Hrun.
    destruct (parse_response env text _) as [[e|[[s a] c]] w1] eqn:Hparse.
    + injection Hrun as <- _. by destruct Hne.
    + injection Hrun as <- _. simpl in *.
      destruct (parse_response_action text _ _ s a c Hparse) as [->|(d & Hd & Ha)];
        [by destruct Hne|].
      exists text, d. done.
Qed.

(** X30.  A failed summarization is never acted on: when the collaborator
    raises, or answers with text that is not JSON, and no approval is
    required, the action stage that follows escalates; the result has
    action [escalate], status [success] and the human-review message, and
    is not an archive. *)
Theorem failed_summary_is_escalated (email : EmailMessage) (w : World) :
  ((exists e, summarize_emails env (entered_summarizer email w) [email] = inl e)
   \/ (exists text e,
         summarize_emails env (entered_summarizer email w) [email] = inr text
         /\ json_loads env text = inl e /\ is_json_decode_error e = true)) ->
  exists (s : SummaryResult) (w1 : World) (a : ActionResult) (w2 : World),
    summarize_and_suggest env email w = (inr s, w1)
    /\ execute_action env s false w1 = (inr a, w2)
    /\ action a = PStr "escalate"
    /\ status a = "success"
    /\ message a = Some "Escalated to human review".
Proof.
  intros Hfail.
  assert (Hsum : exists s w1, summarize_and_suggest env email w = (inr s, w1)
                              /\ suggested_action s = PStr "escalate").
  { destruct Hfail as [(e & Hcall)|(text & e & Hcall & Hload & Hdec)].
    - destruct (summarize_and_suggest_raised email w e Hcall) as (w1 & Hr).
      eexists _, _. split; [exact Hr | reflexivity].
    - rewrite (summarize_and_suggest_step email w text Hcall).
      rewrite (parse_response_not_json env text e _ Hload Hdec).
      eexists _, _. split; reflexivity. }
  destruct Hsum as (s & w1 & Hs & Hact).
  exists s, w1.
  destruct (execute_action_body_string env s "escalate" (entered_action s w1) Hact)
    as (a & w2 & Hbody & Ha & _ & Hst & Hmsg).
  exists a, w2. split; [exact Hs|]. split.
  - revert Hbody. unfold execute_action, entered_action, after_log. unfold_m.
    intros ->. reflexivity.
  - done.
Qed.

End SummarizeStageResponses.

Section SummarizeStageResponseExamples.
Import AgentsOrchestrator PipelineSpec.

Lemma summarize_and_suggest_reads_object_witness :
  exists (r : SummaryResult) (w' : World),
    summarize_and_suggest (Samples.answering "json" (ok (PDict Samples.archive_object)))
                          Samples.invoice Samples.world0 = (inr r, w')
    /\ email_id r = "m1"
    /\ summary r = PStr "json"
    /\ suggested_action r = PStr "Archive"
    /\ confidence r = 0.75%float.
Proof.
  exact (summarize_and_suggest_reads_object
           (Samples.answering "json" (ok (PDict Samples.archive_object)))
           Samples.invoice Samples.world0 "json" Samples.archive_object 0.75%float
           eq_refl eq_refl eq_refl).
Defined.

Lemma summarize_and_suggest_bad_shape_witness :
  exists (r : SummaryResult) (w' : World),
    summarize_and_suggest
      (Samples.answering "json"
         (ok (PDict [("action", PStr "archive"); ("confidence", PStr "high")])))
      Samples.invoice Samples.world0 = (inr r, w')
    /\ summary r = PStr "(summarization failed)"
    /\ suggested_action r = PStr "escalate"
    /\ confidence r = 0%float.
Proof.
  apply (summarize_and_suggest_bad_shape
           (Samples.answering "json"
              (ok (PDict [("action", PStr "archive"); ("confidence", PStr "high")])))
           Samples.invoice Samples.world0 "json"
           (PDict [("action", PStr "archive"); ("confidence", PStr "high")])
           eq_refl eq_refl).
  right. eexists _, _. split; reflexivity.
Defined.

Lemma suggested_action_comes_from_response_witness :
  exists (text : string) (d : list (string * PyVal)),
    summarize_emails (Samples.answering "json" (ok (PDict Samples.archive_object)))
                     (entered_summarizer Samples.invoice Samples.world0)
                     [Samples.invoice] = inr text
    /\ json_loads (Samples.answering "json" (ok (PDict Samples.archive_object))) text
       = inr (PDict d)
    /\ assoc_get "action" d = Some (PStr "Archive").
Proof.
  edestruct (suggested_action_comes_from_response
               (Samples.answering "json" (ok (PDict Samples.archive_object)))
               Samples.invoice Samples.world0) as (text & d & H1 & H2 & H3).
  - reflexivity.
  - simpl. discriminate.
  - exists text, d. split; [exact H1|]. split; [exact H2 | exact H3].
Defined.

Lemma failed_summary_is_escalated_witness :
  exists (s : SummaryResult) (w1 : World) (a : ActionResult) (w2 : World),
    summarize_and_suggest Samples.failing_env Samples.invoice Samples.world0
      = (inr s, w1)
    /\ execute_action Samples.failing_env s false w1 = (inr a, w2)
    /\ action a = PStr "escalate"
    /\ status a = "success"
    /\ message a = Some "Escalated to human review".
Proof.
  apply (failed_summary_is_escalated Samples.failing_env Samples.invoice
           Samples.world0).
  left. eexists. reflexivity.
Defined.

(** The summarizer copies the [action] field as it finds it: a response
    whose action is the number 3 reaches the action stage as a number. *)
Example summarize_and_suggest_passes_non_string_action :
  exists (r : SummaryResult) (w' : World),
    summarize_and_suggest (Samples.answering "json" (ok (PDict [("action", PInt 3)])))
                          Samples.invoice Samples.world0 = (inr r, w')
    /\ suggested_action r = PInt 3.
Proof. eexists _, _. split; reflexivity. Qed.

End SummarizeStageResponseExamples.
